(** * Google Passwords CSV to Bitwarden JSON: the grouping converter

    A shallow embedding of [google_to_bitwarden_converter.py] and the
    properties of its grouping, conflict annotation and error handling.

    Python values are modelled as the program has them:
    - a [str] is a sequence of Unicode code points ([list N]);
    - a CSV cell handed out by [csv.DictReader] is either a [str] or
      [None] (the reader's [restval] for a row shorter than the header),
      hence [option (list N)];
    - a row is a [dict] from field name to cell ([gmap]);
    - [grouped_items] is a [dict] whose insertion order is observable
      (it fixes the order of the output items), hence an association list
      updated in place. *)

From Stdlib Require Import ZArith NArith String Ascii DecimalString.
From stdpp Require Import gmap list.

Open Scope list_scope.

(** ** Python strings *)

Module PyStr.

Fixpoint lit (s : string) : list N :=
  match s with
  | EmptyString => []
  | String a s' => N_of_ascii a :: lit s'
  end.

(** The line feed written [\n] in the source's literals. *)
Definition nl : list N := [10%N].

(** [str.isspace] on one code point (the table of CPython's
    [_PyUnicode_IsWhitespace]). *)
Definition isspace (c : N) : bool :=
  ((9 <=? c) && (c <=? 13) || (28 <=? c) && (c <=? 32)
   || (c =? 133) || (c =? 160) || (c =? 5760)
   || (8192 <=? c) && (c <=? 8202)
   || (c =? 8232) || (c =? 8233) || (c =? 8239) || (c =? 8287)
   || (c =? 12288))%N.

Fixpoint lstrip (s : list N) : list N :=
  match s with
  | [] => []
  | c :: s' => if isspace c then lstrip s' else s
  end.

Definition rstrip (s : list N) : list N := rev (lstrip (rev s)).

(** [s.strip()] *)
Definition strip (s : list N) : list N := rstrip (lstrip s).

(** [needle in hay] for two strings. *)
Fixpoint startswith (hay needle : list N) : bool :=
  match needle, hay with
  | [], _ => true
  | _ :: _, [] => false
  | a :: needle', b :: hay' => (a =? b)%N && startswith hay' needle'
  end.

Fixpoint contains (hay needle : list N) : bool :=
  startswith hay needle ||
  match hay with
  | [] => false
  | _ :: hay' => contains hay' needle
  end.

End PyStr.

Import PyStr.

#[global] Arguments lit : simpl never.

(** A cell or any other value that is a [str] or [None]. *)
Abbreviation pyval := (option (list N)).

(** Truth value of a [str]-or-[None]: [None] and [''] are falsy. *)
Definition truthy (v : pyval) : bool :=
  match v with
  | Some (_ :: _) => true
  | _ => false
  end.

(** [f"{v}"] *)
Definition format (v : pyval) : list N :=
  match v with
  | Some s => s
  | None => lit "None"
  end.

(** ** Rows *)

(** One row of [csv.DictReader]: a dict from field name to cell. *)
Abbreviation Row := (gmap (list N) (option (list N))).

(** [row.get(key)] *)
Definition get (row : Row) (key : list N) : pyval :=
  match row !! key with
  | Some v => v
  | None => None
  end.

(** [row.get(key, default)] *)
Definition get_default (row : Row) (key : list N) (dflt : pyval) : pyval :=
  match row !! key with
  | Some v => v
  | None => dflt
  end.

(** ** The Bitwarden item *)

Module UriEntry.
Record t := mk { uri : pyval; match_ : pyval }.
End UriEntry.

Module Login.
Record t := mk {
  uris : list UriEntry.t;
  username : pyval;
  password : pyval;
  totp : pyval
}.
End Login.

Module Item.
Record t := mk {
  type : Z;
  name : pyval;
  notes : pyval;
  favorite : bool;
  login : Login.t;
  fields : list pyval
}.
End Item.

(** ** An insertion-ordered dict *)

Section Dict.
Context {K V : Type} `{EqDecision K}.

(** [d[k]]; the result is [None] exactly when [k not in d]. *)
Fixpoint dict_get (d : list (K * V)) (k : K) : option V :=
  match d with
  | [] => None
  | (k', v) :: d' => if decide (k = k') then Some v else dict_get d' k
  end.

(** [d[k] = v]: an existing key keeps its place, a new key goes last. *)
Fixpoint dict_set (d : list (K * V)) (k : K) (v : V) : list (K * V) :=
  match d with
  | [] => [(k, v)]
  | (k', v') :: d' =>
      if decide (k = k') then (k', v) :: d' else (k', v') :: dict_set d' k v
  end.

(** [d.keys()] and [d.values()], in insertion order. *)
Definition dict_keys (d : list (K * V)) : list K := map fst d.
Definition dict_values (d : list (K * V)) : list V := map snd d.

End Dict.

(** ** Diagnostics

    One constructor per [print] call of the source, carrying the values
    the message interpolates. *)

Inductive Diag :=
| ReadingFrom (input_csv_path : list N)
| ErrorBadFormat
| ExpectedHeaders (expected_headers : list (list N))
| FoundHeaders (fieldnames : list (list N))
| WarningConflict (name : pyval)
| WarningUrl (url : pyval)
| WarningSticking
| ErrorNotFound (input_csv_path : list N)
| ErrorUnexpected
| SuccessRule
| SuccessReady
| SuccessProcessed (n : nat)
| SuccessCreatedAt (output_json_path : list N)
| ErrorCouldNotWrite.

(** ** The body of the loop *)

Definition conflict_note (url username : pyval) : list N :=
  nl ++ nl ++ lit "--- AUTO-MERGE WARNING ---" ++ nl ++
  lit "An entry for the URL below had different credentials and was not merged automatically:" ++ nl ++
  lit "URL: " ++ format url ++ nl ++
  lit "Username: " ++ format username ++ nl.

(** The item created at lines 46-58 for a name seen for the first time. *)
Definition new_item (name url username password note : pyval) : Item.t :=
  {| Item.type := 1;
     Item.name := name;
     Item.notes := if truthy note then note else None;
     Item.favorite := false;
     Item.login :=
       {| Login.uris := [ {| UriEntry.uri := url; UriEntry.match_ := None |} ];
          Login.username := username;
          Login.password := password;
          Login.totp := None |};
     Item.fields := [] |}.

(** [existing_item['login']['uris'].append({"uri": url, "match": None})] *)
Definition append_uri (existing_item : Item.t) (url : pyval) : Item.t :=
  let login := Item.login existing_item in
  {| Item.type := Item.type existing_item;
     Item.name := Item.name existing_item;
     Item.notes := Item.notes existing_item;
     Item.favorite := Item.favorite existing_item;
     Item.login :=
       {| Login.uris :=
            Login.uris login ++ [ {| UriEntry.uri := url; UriEntry.match_ := None |} ];
          Login.username := Login.username login;
          Login.password := Login.password login;
          Login.totp := Login.totp login |};
     Item.fields := Item.fields existing_item |}.

(** [existing_item['notes'] = v] *)
Definition set_notes (existing_item : Item.t) (v : pyval) : Item.t :=
  {| Item.type := Item.type existing_item;
     Item.name := Item.name existing_item;
     Item.notes := v;
     Item.favorite := Item.favorite existing_item;
     Item.login := Item.login existing_item;
     Item.fields := Item.fields existing_item |}.

(** Lines 81-84. *)
Definition annotate (existing_item : Item.t) (conflict_note : list N) : Item.t :=
  match Item.notes existing_item with
  | Some (c :: notes) => set_notes existing_item (Some ((c :: notes) ++ conflict_note))
  | _ => set_notes existing_item (Some (strip conflict_note))
  end.

(** Lines 67-68: the test of the conflict branch. *)
Definition conflicting (existing_item : Item.t) (username password : pyval) : bool :=
  bool_decide (Login.username (Item.login existing_item) ≠ username)
  || bool_decide (Login.password (Item.login existing_item) ≠ password).

(** The state the loop works on: the dict and what was printed so far. *)
Record State := mkState {
  grouped_items : list (pyval * Item.t);
  printed : list Diag
}.

(** Line 40: the rows the loop does not skip. *)
Definition accepted (row : Row) : bool :=
  truthy (get row (lit "name")) && truthy (get row (lit "url"))
  && truthy (get row (lit "username")).

(** One iteration of the [for row in reader] loop (lines 32-84). *)
Definition process_row (st : State) (row : Row) : State :=
  let name := get row (lit "name") in
  let url := get row (lit "url") in
  let username := get row (lit "username") in
  let password := get row (lit "password") in
  let note := get_default row (lit "note") (Some []) in
  if negb (truthy name) || negb (truthy url) || negb (truthy username) then st
  else
    match dict_get (grouped_items st) name with
    | None => (* [name not in grouped_items] *)
        mkState
          (dict_set (grouped_items st) name (new_item name url username password note))
          (printed st)
    | Some existing_item => (* [existing_item = grouped_items[name]] *)
        let existing_item := append_uri existing_item url in
        if conflicting existing_item username password then
          mkState
            (dict_set (grouped_items st) name
               (annotate existing_item (conflict_note url username)))
            (printed st ++ [WarningConflict name; WarningUrl url; WarningSticking])
        else
          mkState (dict_set (grouped_items st) name existing_item) (printed st)
    end.

(** The whole loop over the rows the reader yields. *)
Definition process_rows (st : State) (rows : list Row) : State :=
  fold_left process_row rows st.

(** ** Output assembly (lines 95-99) *)

Record Document := mkDocument {
  encrypted : bool;
  folders : list pyval;
  items : list Item.t
}.

Definition bitwarden_output (grouped_items : list (pyval * Item.t)) : Document :=
  {| encrypted := false; folders := []; items := dict_values grouped_items |}.

(** The document built from the rows of a well-formed input. *)
Definition convert (rows : list Row) : Document :=
  bitwarden_output (grouped_items (process_rows (mkState [] []) rows)).

(** ** [json.dump(obj, json_file, indent=2)]

    The text [json.dump] produces for the document, with the default
    [ensure_ascii=True] and the separators [","] and [": "] that go with
    an indent. *)

Module Json.

Definition hex_digit (d : N) : N :=
  if (d <? 10)%N then (48 + d)%N else (87 + d)%N.

(** ['{0:04x}'.format(n)] *)
Definition hex4 (n : N) : list N :=
  [hex_digit (n / 4096 mod 16); hex_digit (n / 256 mod 16);
   hex_digit (n / 16 mod 16); hex_digit (n mod 16)]%N.

Definition backslash : N := 92.
Definition quote : N := 34.

(** One code point inside a string ([py_encode_basestring_ascii]). *)
Definition escape (c : N) : list N :=
  if (c =? quote)%N then [backslash; quote]
  else if (c =? backslash)%N then [backslash; backslash]
  else if (c =? 10)%N then backslash :: lit "n"
  else if (c =? 13)%N then backslash :: lit "r"
  else if (c =? 9)%N then backslash :: lit "t"
  else if (c =? 12)%N then backslash :: lit "f"
  else if (c =? 8)%N then backslash :: lit "b"
  else if ((32 <=? c) && (c <=? 126))%N then [c]
  else if (c <? 65536)%N then backslash :: lit "u" ++ hex4 c
  else
    let v := (c - 65536)%N in
    backslash :: lit "u" ++ hex4 (55296 + v / 1024 mod 1024)%N
    ++ backslash :: lit "u" ++ hex4 (56320 + v mod 1024)%N.

Definition str (s : list N) : list N :=
  quote :: flat_map escape s ++ [quote].

Definition val (v : pyval) : list N :=
  match v with
  | None => lit "null"
  | Some s => str s
  end.

Definition bool (b : bool) : list N :=
  if b then lit "true" else lit "false".

Definition int (z : Z) : list N :=
  lit (DecimalString.NilZero.string_of_int (Z.to_int z)).

(** A line break followed by the indentation of a nesting level. *)
Definition newline_indent (level : nat) : list N :=
  nl ++ repeat 32%N (2 * level).

Fixpoint join (sep : list N) (parts : list (list N)) : list N :=
  match parts with
  | [] => []
  | [x] => x
  | x :: parts' => x ++ sep ++ join sep parts'
  end.

Definition array (level : nat) (elements : list (list N)) : list N :=
  match elements with
  | [] => lit "[]"
  | _ =>
      lit "[" ++ newline_indent (S level)
      ++ join (lit "," ++ newline_indent (S level)) elements
      ++ newline_indent level ++ lit "]"
  end.

Definition object (level : nat) (members : list (list N * list N)) : list N :=
  lit "{" ++ newline_indent (S level)
  ++ join (lit "," ++ newline_indent (S level))
       (map (fun kv => str (fst kv) ++ lit ": " ++ snd kv) members)
  ++ newline_indent level ++ lit "}".

Definition uri_entry (level : nat) (u : UriEntry.t) : list N :=
  object level [(lit "uri", val (UriEntry.uri u)); (lit "match", val (UriEntry.match_ u))].

Definition login (level : nat) (l : Login.t) : list N :=
  object level
    [(lit "uris", array (S level) (map (uri_entry (S (S level))) (Login.uris l)));
     (lit "username", val (Login.username l));
     (lit "password", val (Login.password l));
     (lit "totp", val (Login.totp l))].

Definition item (level : nat) (it : Item.t) : list N :=
  object level
    [(lit "type", int (Item.type it));
     (lit "name", val (Item.name it));
     (lit "notes", val (Item.notes it));
     (lit "favorite", bool (Item.favorite it));
     (lit "login", login (S level) (Item.login it));
     (lit "fields", array (S level) (map val (Item.fields it)))].

Definition dumps (doc : Document) : list N :=
  object 0
    [(lit "encrypted", bool (encrypted doc));
     (lit "folders", array 1 (map val (folders doc)));
     (lit "items", array 1 (map (item 2) (items doc)))].

End Json.

(** ** The environment of one run *)

(** What the input path holds, as the [try] block of lines 19-84 meets it. *)
Inductive Source :=
| Missing
    (* [open] raises [FileNotFoundError] *)
| Unreadable
    (* [open], or reading the header, raises another exception *)
| Csv (fieldnames : option (list (list N))) (rows : list Row) (broken : bool).
    (* [reader.fieldnames] ([None] for an empty file), the rows the reader
       yields, and whether it raises instead of stopping after them *)

(** What writing to the output path does. *)
Inductive Sink :=
| Unwritable
    (* [open(output_json_path, 'w')] raises: the file is not touched *)
| FailsAfter (written : nat)
    (* the file is opened, hence created or truncated, and [json.dump]
       raises once [written] characters have reached it *)
| Writable.

(** How a block of statements ends. *)
Inductive Control :=
| Normal
| FileNotFoundError
| Exception
| SystemExit (code : Z).

(** What a run leaves behind: the exit status of the process, the
    content of the output file ([None] when it does not exist), and what
    was printed. *)
Record Outcome := mkOutcome {
  status : Z;
  output_file : option (list N);
  stdout : list Diag
}.

Definition print (st : State) (lines : list Diag) : State :=
  mkState (grouped_items st) (printed st ++ lines).

Definition expected_headers : list (list N) :=
  [lit "name"; lit "url"; lit "username"; lit "password"].

(** Line 25: [all(h in reader.fieldnames for h in expected_headers)] *)
Definition has_expected_headers (fieldnames : list (list N)) : bool :=
  forallb (fun h => bool_decide (h ∈ fieldnames)) expected_headers.

(** The body of the first [try] (lines 20-84). *)
Definition read_body (source : Source) (st : State) : State * Control :=
  match source with
  | Missing => (st, FileNotFoundError)
  | Unreadable => (st, Exception)
  | Csv None _ _ => (st, Exception)
  | Csv (Some fieldnames) rows broken =>
      if negb (has_expected_headers fieldnames) then
        (print st [ErrorBadFormat; ExpectedHeaders expected_headers;
                   FoundHeaders fieldnames],
         SystemExit 1)
      else
        (process_rows st rows, if broken then Exception else Normal)
  end.

(** Standard output, as the [print] calls of a run meet it. A [print]
    that is refused raises: [UnicodeEncodeError] when the encoding of
    stdout lacks a character of the line (the check mark of line 106, or a
    character of a name, url or path), [OSError] when the stream is broken;
    both are subclasses of [Exception]. Whether a line is taken may depend
    on what was printed before it. When the interpreter cannot flush stdout
    on exit, the process ends with status 120 whatever the script asked
    for. *)
Record Console := mkConsole {
  accepts : list Diag -> Diag -> bool;
  flushes : list Diag -> bool
}.

(** [print] line after line: what stdout holds afterwards and whether
    every line was taken; the first line refused is the [print] that
    raises, and nothing after it is printed. *)
Fixpoint emit (console : Console) (out lines : list Diag) : list Diag * bool :=
  match lines with
  | [] => (out, true)
  | line :: lines' =>
      if accepts console out line then emit console (out ++ [line]) lines'
      else (out, false)
  end.

(** A handler that prints one line and calls [sys.exit(1)] (lines 88-89,
    91-92 and 111-112): when the line is refused, the exception of [print]
    leaves the handler, and nothing catches it. *)
Definition handler (console : Console) (out : list Diag) (line : Diag)
  : list Diag * Control :=
  let (out, taken) := emit console out [line] in
  (out, if taken then SystemExit 1 else Exception).

(** The first [try] with its handlers (lines 19-92). [read_body] gives the
    lines the body prints and how it ends when every line is taken; a line
    that is refused ends the body there with an [Exception], and the dict
    built so far is not used again. [SystemExit] is not an [Exception] and
    passes through. The state returned holds the dict and what stdout
    holds. *)
Definition read_phase (console : Console) (input_csv_path : list N)
    (source : Source) (out : list Diag) : State * Control :=
  let (st, c) := read_body source (mkState [] []) in
  let (out, taken) := emit console out (printed st) in
  match (if taken then c else Exception) with
  | FileNotFoundError =>
      let (out, c) := handler console out (ErrorNotFound input_csv_path) in
      (mkState (grouped_items st) out, c)
  | Exception =>
      let (out, c) := handler console out ErrorUnexpected in
      (mkState (grouped_items st) out, c)
  | c => (mkState (grouped_items st) out, c)
  end.

(** The second [try] with its handler (lines 102-112): the content of the
    output file, what stdout holds, and how the block ends. The five
    prints of lines 105-109 come after the [with] block, when the file is
    written and closed, and inside the [try]: one that is refused reaches
    the handler of line 110. *)
Definition write_phase (console : Console) (output_json_path : list N) (sink : Sink)
    (file : option (list N)) (st : State) : option (list N) * (list Diag * Control) :=
  let bitwarden_output := bitwarden_output (grouped_items st) in
  match sink with
  | Unwritable => (file, handler console (printed st) ErrorCouldNotWrite)
  | FailsAfter written =>
      (Some (take written (Json.dumps bitwarden_output)),
       handler console (printed st) ErrorCouldNotWrite)
  | Writable =>
      (Some (Json.dumps bitwarden_output),
       let (out, taken) :=
         emit console (printed st)
           [SuccessRule; SuccessReady;
            SuccessProcessed (length (grouped_items st));
            SuccessCreatedAt output_json_path; SuccessRule] in
       if taken then (out, Normal) else handler console out ErrorCouldNotWrite)
  end.

(** The exit status of the process: 0 when the script runs to its end,
    the argument of [sys.exit], 1 for an exception that nothing catches,
    and 120 in each case when stdout cannot be flushed on exit. *)
Definition exit_status (console : Console) (out : list Diag) (c : Control) : Z :=
  if flushes console out then
    match c with
    | Normal => 0
    | SystemExit code => code
    | FileNotFoundError | Exception => 1
    end
  else 120.

(** The whole function, run as the script runs it; [file] is the content
    of the output file before the run. The [print] of line 12 is outside
    every [try]. *)
Definition convert_google_to_bitwarden (console : Console)
    (input_csv_path output_json_path : list N)
    (source : Source) (sink : Sink) (file : option (list N)) : Outcome :=
  let (out, taken) := emit console [] [ReadingFrom input_csv_path] in
  if taken then
    match read_phase console input_csv_path source out with
    | (st, Normal) =>
        let '(file, (out, c)) := write_phase console output_json_path sink file st in
        mkOutcome (exit_status console out c) file out
    | (st, c) => mkOutcome (exit_status console (printed st) c) file (printed st)
    end
  else mkOutcome (exit_status console out Exception) file out.

(** A stdout that takes every line and can be flushed. *)
Definition reliable (console : Console) : Prop :=
  (forall out line, accepts console out line = true) /\
  (forall out, flushes console out = true).

Definition terminal : Console := mkConsole (fun _ _ => true) (fun _ => true).

(** ** Vocabulary of the statements *)

(** The accepted rows that bear the name [n], in input order. *)
Definition in_group (n : pyval) (row : Row) : bool :=
  accepted row && bool_decide (get row (lit "name") = n).

Definition group (n : pyval) (rows : list Row) : list Row :=
  List.filter (in_group n) rows.

(** The names of the accepted rows, in input order. *)
Definition accepted_names (rows : list Row) : list pyval :=
  map (fun row => get row (lit "name")) (List.filter accepted rows).

(** A list without its repetitions, each element at its first place. *)
Fixpoint first_occurrences {A} `{EqDecision A} (l : list A) : list A :=
  match l with
  | [] => []
  | x :: l' => x :: List.filter (fun y => bool_decide (y ≠ x)) (first_occurrences l')
  end.

(** The item of a document that bears the name [n]. *)
Definition find_item (doc : Document) (n : pyval) : option Item.t :=
  List.find (fun it => bool_decide (Item.name it = n)) (items doc).

(** The literal marker text of a conflict annotation. *)
Definition marker : list N := lit "--- AUTO-MERGE WARNING ---".

(** A cell that is the empty string or absent. *)
Definition empty_or_absent (v : pyval) : Prop := v = None \/ v = Some [].

(** Lines 60-84 as they act on the item alone. *)
Definition merge_row (existing_item : Item.t) (row : Row) : Item.t :=
  let existing_item := append_uri existing_item (get row (lit "url")) in
  if conflicting existing_item (get row (lit "username")) (get row (lit "password"))
  then annotate existing_item
         (conflict_note (get row (lit "url")) (get row (lit "username")))
  else existing_item.

(** Lines 46-58 on a row. *)
Definition item_of_row (row : Row) : Item.t :=
  new_item (get row (lit "name")) (get row (lit "url")) (get row (lit "username"))
    (get row (lit "password")) (get_default row (lit "note") (Some [])).

(** The item a group's rows build up, first row first. *)
Definition item_step (acc : option Item.t) (row : Row) : option Item.t :=
  match acc with
  | None => Some (item_of_row row)
  | Some existing_item => Some (merge_row existing_item row)
  end.

Definition item_of_group (rs : list Row) : option Item.t :=
  fold_left item_step rs None.


(** ** Sample inputs *)

(** A row with all five columns present. *)
Definition row5 (name url username password note : string) : Row :=
  {[ lit "name" := Some (lit name); lit "url" := Some (lit url);
     lit "username" := Some (lit username); lit "password" := Some (lit password);
     lit "note" := Some (lit note) ]}.

(** The row that the line [Google,https://a.com,u1] gives under the
    header [name,url,username,password,note]: the reader fills the two
    cells the line lacks with [None]. *)
Definition short_row : Row :=
  {[ lit "name" := Some (lit "Google"); lit "url" := Some (lit "https://a.com");
     lit "username" := Some (lit "u1"); lit "password" := None;
     lit "note" := None ]}.

Definition rows_A : list Row :=
  [row5 "Google" "https://a.com" "u1" "p1" "";
   row5 "Google" "https://b.com" "u1" "p1" ""].

Definition rows_B : list Row :=
  [row5 "Amazon" "https://a.com" "u1" "p1" "";
   row5 "Amazon" "https://b.com" "u2" "p2" ""].

Definition google_header : list (list N) :=
  [lit "name"; lit "url"; lit "username"; lit "password"; lit "note"].

(** Scenario B stopped after its first row: the state, and the item of
    the group "Amazon" in it. *)
Definition amazon_first : Row := row5 "Amazon" "https://a.com" "u1" "p1" "".
Definition amazon_second : Row := row5 "Amazon" "https://b.com" "u2" "p2" "".
Definition amazon_second_noted : Row :=
  row5 "Amazon" "https://b.com" "u2" "p2" "a note of the second row".
Definition amazon_state : State := process_row (mkState [] []) amazon_first.
Definition amazon_item : Item.t := item_of_row amazon_first.

(** A third row of the same group, with the credentials of the first. *)
Definition amazon_third : Row := row5 "Amazon" "https://c.com" "u1" "p1" "".

(** Scenario C: a row whose username is empty. *)
Definition no_username : Row := row5 "Github" "https://c.com" "" "p3" "".

(** A stdout whose encoding lacks the check mark of line 106. *)
Definition no_check_mark : Console :=
  mkConsole (fun _ line => match line with SuccessReady => false | _ => true end)
    (fun _ => true).

(** The input is read to its end and has the expected header: its rows. *)
Definition rows_read (source : Source) : option (list Row) :=
  match source with
  | Csv (Some fieldnames) rows false =>
      if has_expected_headers fieldnames then Some rows else None
  | _ => None
  end.

(** ** Vocabulary of the further properties *)

(** Lines 67-68 read between two rows: the username or the password of
    [row] is not the one of [first]. *)
Definition differs (first row : Row) : bool :=
  bool_decide (get first (lit "username") ≠ get row (lit "username"))
  || bool_decide (get first (lit "password") ≠ get row (lit "password")).

(** The block lines 75-80 build for a row. *)
Definition block_of (row : Row) : list N :=
  conflict_note (get row (lit "url")) (get row (lit "username")).

(** Lines 81-84 on the notes alone. *)
Definition add_block (notes : pyval) (block : list N) : pyval :=
  match notes with
  | Some (c :: notes) => Some ((c :: notes) ++ block)
  | _ => Some (strip block)
  end.

(** The three lines that lines 70-72 print for a row. *)
Definition warning_lines (row : Row) : list Diag :=
  [WarningConflict (get row (lit "name")); WarningUrl (get row (lit "url"));
   WarningSticking].

(** What the loop prints over [rows] when the rows [before] were read
    already: three lines for each accepted row whose group has a first row
    in what precedes it and whose credentials are not that first row's. *)
Fixpoint warnings_from (before rows : list Row) : list Diag :=
  match rows with
  | [] => []
  | row :: rest =>
      match head (group (get row (lit "name")) before) with
      | Some first => if accepted row && differs first row then warning_lines row else []
      | None => []
      end ++ warnings_from (before ++ [row]) rest
  end.

(** The five lines of lines 105-109. *)
Definition success_lines (n : nat) (output_json_path : list N) : list Diag :=
  [SuccessRule; SuccessReady; SuccessProcessed n;
   SuccessCreatedAt output_json_path; SuccessRule].

(** A line feed or a printable ASCII character. *)
Definition printable_ascii (c : N) : bool :=
  ((c =? 10) || (32 <=? c) && (c <=? 126))%N.

(** The number of uri entries of a document. *)
Definition count_uris (doc : Document) : nat :=
  sum_list_with (fun it => length (Login.uris (Item.login it))) (items doc).

(** * Properties *)

(** ** The ordered dict *)

Section DictFacts.
Context {K V : Type} `{EqDecision K}.
Implicit Types (d : list (K * V)) (k : K) (v : V).

Lemma dict_get_set d k v k' :
  dict_get (dict_set d k v) k' = if decide (k' = k) then Some v else dict_get d k'.
Proof.
  induction d as [|[k0 v0] d IH]; simpl.
  - repeat case_decide; congruence.
  - destruct (decide (k = k0)) as [->|Hne]; simpl.
    + repeat case_decide; congruence.
    + rewrite IH. repeat case_decide; congruence.
Qed.

Lemma dict_get_Some_keys d k v : dict_get d k = Some v -> k ∈ dict_keys d.
Proof.
  induction d as [|[k0 v0] d IH]; simpl; [done|].
  case_decide; subst; intros; [left | right; auto].
Qed.

Lemma dict_get_None_keys d k : dict_get d k = None <-> k ∉ dict_keys d.
Proof.
  induction d as [|[k0 v0] d IH]; simpl.
  - split; [intros _; apply not_elem_of_nil | done].
  - rewrite not_elem_of_cons. case_decide; subst; [split; [done | tauto] | tauto].
Qed.

Lemma dict_keys_set_old d k v v0 :
  dict_get d k = Some v0 -> dict_keys (dict_set d k v) = dict_keys d.
Proof.
  induction d as [|[k1 v1] d IH]; simpl; [done|].
  destruct (decide (k = k1)); simpl; [done|]. intros; f_equal; auto.
Qed.

Lemma dict_keys_set_new d k v :
  dict_get d k = None -> dict_keys (dict_set d k v) = dict_keys d ++ [k].
Proof.
  induction d as [|[k1 v1] d IH]; simpl; [done|].
  destruct (decide (k = k1)); simpl; [done|]. intros; f_equal; auto.
Qed.

Lemma dict_values_get d v :
  v ∈ dict_values d -> NoDup (dict_keys d) -> exists k, dict_get d k = Some v.
Proof.
  induction d as [|[k1 v1] d IH]; simpl.
  - intros Hin. by apply elem_of_nil in Hin.
  - rewrite elem_of_cons, NoDup_cons. intros [->|Hin] [Hk1 Hnd].
    + exists k1. by rewrite decide_True.
    + destruct (IH Hin Hnd) as [k Hk]. exists k.
      rewrite decide_False; [done|]. intros ->.
      apply Hk1. eapply dict_get_Some_keys; eauto.
Qed.

Lemma dict_get_values d k v : dict_get d k = Some v -> v ∈ dict_values d.
Proof.
  induction d as [|[k1 v1] d IH]; simpl; [done|].
  case_decide; [intros [= ->]; left | right; auto].
Qed.

End DictFacts.

Lemma dict_get_elem {K V} `{EqDecision K} (d : list (K * V)) k v :
  NoDup (dict_keys d) -> (k, v) ∈ d -> dict_get d k = Some v.
Proof.
  induction d as [|[k1 v1] d IH]; simpl.
  - intros _ Hin. by apply elem_of_nil in Hin.
  - rewrite NoDup_cons, elem_of_cons. intros [Hk1 Hnd] [[= -> ->]|Hin].
    + by rewrite decide_True.
    + rewrite decide_False; [auto|]. intros ->. apply Hk1.
      unfold dict_keys. apply list_elem_of_fmap. by exists (k1, v).
Qed.

(** ** First occurrences *)

Section FirstOccurrences.
Context {A : Type} `{EqDecision A}.
Implicit Types (l : list A) (x : A).

Lemma elem_of_filter_bool (f : A -> bool) l x :
  x ∈ List.filter f l <-> x ∈ l /\ f x = true.
Proof. rewrite !list_elem_of_In. apply filter_In. Qed.

Lemma elem_of_first_occurrences l x : x ∈ first_occurrences l <-> x ∈ l.
Proof.
  induction l as [|a l IH]; simpl; [done|].
  rewrite !elem_of_cons, elem_of_filter_bool, IH, bool_decide_eq_true.
  destruct (decide (x = a)); tauto.
Qed.

Lemma NoDup_filter_bool (f : A -> bool) l : NoDup l -> NoDup (List.filter f l).
Proof.
  induction 1 as [|a l Hni Hnd IH]; simpl; [constructor|].
  destruct (f a); [constructor|]; auto.
  rewrite elem_of_filter_bool. tauto.
Qed.

Lemma NoDup_first_occurrences l : NoDup (first_occurrences l).
Proof.
  induction l as [|a l IH]; simpl; constructor.
  - rewrite elem_of_filter_bool, bool_decide_eq_true. tauto.
  - by apply NoDup_filter_bool.
Qed.

Lemma first_occurrences_snoc l x :
  first_occurrences (l ++ [x]) =
  if decide (x ∈ l) then first_occurrences l else first_occurrences l ++ [x].
Proof.
  induction l as [|a l IH].
  - reflexivity.
  - cbn [app first_occurrences]. rewrite IH. destruct (decide (x ∈ l)) as [Hin|Hni].
    + rewrite decide_True; [done | by right].
    + rewrite List.filter_app. simpl. destruct (decide (x = a)) as [->|Hne].
      * rewrite decide_True by left.
        rewrite bool_decide_eq_false_2 by tauto. by rewrite app_nil_r.
      * rewrite decide_False by (rewrite elem_of_cons; tauto).
        by rewrite bool_decide_eq_true_2.
Qed.

(** The element that occurs first in [l] comes first in the result. *)
Lemma first_occurrences_order l i j x y :
  first_occurrences l !! i = Some x -> first_occurrences l !! j = Some y ->
  i < j ->
  exists p, l !! p = Some x /\ y ∉ take (S p) l.
Proof.
  revert i j. induction l as [|a l IH] using rev_ind; intros i j; [done|].
  rewrite first_occurrences_snoc. destruct (decide (a ∈ l)) as [Hin|Hni].
  - intros Hi Hj Hij. destruct (IH _ _ Hi Hj Hij) as (p & Hp & Hy).
    exists p. pose proof (lookup_lt_Some _ _ _ Hp) as Hlt.
    rewrite lookup_app_l by done. split; [done|].
    rewrite take_app_le by lia. done.
  - intros Hi Hj Hij.
    assert (Hlen : i < length (first_occurrences l)).
    { apply lookup_lt_Some in Hj. rewrite length_app in Hj. simpl in Hj. lia. }
    rewrite lookup_app_l in Hi by done.
    destruct (decide (j < length (first_occurrences l))) as [Hjl|Hjl].
    + rewrite lookup_app_l in Hj by done.
      destruct (IH _ _ Hi Hj Hij) as (p & Hp & Hy).
      exists p. pose proof (lookup_lt_Some _ _ _ Hp) as Hlt.
      rewrite lookup_app_l by done. split; [done|].
      rewrite take_app_le by lia. done.
    + rewrite lookup_app_r in Hj by lia.
      destruct (j - length (first_occurrences l)) as [|?] eqn:E; simpl in Hj; [|done].
      injection Hj as <-.
      assert (Hx : x ∈ l).
      { apply elem_of_first_occurrences. eapply list_elem_of_lookup_2; eauto. }
      apply list_elem_of_lookup in Hx as [p Hp]. exists p.
      pose proof (lookup_lt_Some _ _ _ Hp) as Hlt.
      rewrite lookup_app_l by done. split; [done|].
      rewrite take_app_le by lia. intros Hin. apply Hni.
      apply elem_of_take in Hin as (q & Hq & _).
      eapply list_elem_of_lookup_2; eauto.
Qed.

End FirstOccurrences.

(** ** One item under the rows of its group *)

Lemma conflicting_append_uri it url username password :
  conflicting (append_uri it url) username password = conflicting it username password.
Proof. reflexivity. Qed.

Lemma annotate_login it note : Item.login (annotate it note) = Item.login it.
Proof. unfold annotate. by destruct (Item.notes it) as [[|c s]|]. Qed.

Lemma annotate_frame it note :
  Item.type (annotate it note) = Item.type it /\
  Item.name (annotate it note) = Item.name it /\
  Item.favorite (annotate it note) = Item.favorite it /\
  Item.fields (annotate it note) = Item.fields it.
Proof. unfold annotate. by destruct (Item.notes it) as [[|c s]|]. Qed.

Lemma merge_row_login it row :
  Item.login (merge_row it row) =
  {| Login.uris := Login.uris (Item.login it) ++ [UriEntry.mk (get row (lit "url")) None];
     Login.username := Login.username (Item.login it);
     Login.password := Login.password (Item.login it);
     Login.totp := Login.totp (Item.login it) |}.
Proof.
  unfold merge_row. destruct (conflicting _ _ _); [rewrite annotate_login|]; reflexivity.
Qed.

Lemma merge_row_frame it row :
  Item.type (merge_row it row) = Item.type it /\
  Item.name (merge_row it row) = Item.name it /\
  Item.favorite (merge_row it row) = Item.favorite it /\
  Item.fields (merge_row it row) = Item.fields it.
Proof.
  unfold merge_row. destruct (conflicting _ _ _); [|done].
  apply (annotate_frame (append_uri it _)).
Qed.

Lemma merge_rows_login rest : forall it,
  Item.login (fold_left merge_row rest it) =
  {| Login.uris :=
       Login.uris (Item.login it)
       ++ map (fun row => UriEntry.mk (get row (lit "url")) None) rest;
     Login.username := Login.username (Item.login it);
     Login.password := Login.password (Item.login it);
     Login.totp := Login.totp (Item.login it) |}.
Proof.
  induction rest as [|row rest IH]; intros it; simpl.
  - rewrite app_nil_r. by destruct (Item.login it).
  - rewrite IH, merge_row_login. simpl. by rewrite <- app_assoc.
Qed.

Lemma merge_rows_frame rest : forall it,
  Item.type (fold_left merge_row rest it) = Item.type it /\
  Item.name (fold_left merge_row rest it) = Item.name it /\
  Item.favorite (fold_left merge_row rest it) = Item.favorite it /\
  Item.fields (fold_left merge_row rest it) = Item.fields it.
Proof.
  induction rest as [|row rest IH]; intros it; simpl; [done|].
  destruct (IH (merge_row it row)) as (-> & -> & -> & ->).
  apply merge_row_frame.
Qed.

Lemma item_steps_Some rest : forall it,
  fold_left item_step rest (Some it) = Some (fold_left merge_row rest it).
Proof. induction rest as [|row rest IH]; intros it; simpl; [done | apply IH]. Qed.

Lemma item_of_group_cons row rest :
  item_of_group (row :: rest) = Some (fold_left merge_row rest (item_of_row row)).
Proof. unfold item_of_group. simpl. apply item_steps_Some. Qed.

Lemma item_of_group_snoc rs row :
  item_of_group (rs ++ [row]) = item_step (item_of_group rs) row.
Proof. unfold item_of_group. by rewrite fold_left_app. Qed.

(** ** The rows of a group *)

Lemma group_snoc n rows row :
  group n (rows ++ [row]) = group n rows ++ (if in_group n row then [row] else []).
Proof. unfold group. rewrite List.filter_app. simpl. by destruct (in_group n row). Qed.

Lemma group_app n rows more : group n (rows ++ more) = group n rows ++ group n more.
Proof. apply List.filter_app. Qed.

Lemma elem_of_group n rows row :
  row ∈ group n rows <-> row ∈ rows /\ accepted row = true /\ get row (lit "name") = n.
Proof.
  unfold group. rewrite elem_of_filter_bool. unfold in_group.
  rewrite andb_true_iff, bool_decide_eq_true. tauto.
Qed.

Lemma group_head n rows row :
  head (group n rows) = Some row ->
  row ∈ rows /\ accepted row = true /\ get row (lit "name") = n.
Proof.
  intros Hhd. apply elem_of_group.
  destruct (group n rows) as [|r rs]; [done|]. injection Hhd as ->. left.
Qed.

Lemma accepted_names_snoc rows row :
  accepted_names (rows ++ [row]) =
  accepted_names rows ++ (if accepted row then [get row (lit "name")] else []).
Proof.
  unfold accepted_names. rewrite List.filter_app, map_app. simpl.
  by destruct (accepted row).
Qed.

Lemma elem_of_accepted_names rows n :
  n ∈ accepted_names rows <->
  exists row, row ∈ rows /\ accepted row = true /\ get row (lit "name") = n.
Proof.
  unfold accepted_names.
  change (map ?f ?l) with (f <$> l). rewrite list_elem_of_fmap.
  split.
  - intros (row & -> & Hin). apply elem_of_filter_bool in Hin as [Hin Hacc].
    exists row. auto.
  - intros (row & Hin & Hacc & <-). exists row. rewrite elem_of_filter_bool. auto.
Qed.

Lemma group_nil_iff n rows : group n rows = [] <-> n ∉ accepted_names rows.
Proof.
  rewrite elem_of_accepted_names. split.
  - intros Hnil (row & Hin & Hacc & Hn).
    assert (Hg : row ∈ group n rows) by by apply elem_of_group.
    rewrite Hnil in Hg. by apply elem_of_nil in Hg.
  - intros Hno. destruct (group n rows) as [|row rs] eqn:E; [done|].
    exfalso. apply Hno. exists row. apply elem_of_group. rewrite E. left.
Qed.

(** ** The loop *)

Lemma accepted_negb row :
  negb (truthy (get row (lit "name"))) || negb (truthy (get row (lit "url")))
  || negb (truthy (get row (lit "username"))) = negb (accepted row).
Proof. unfold accepted. by rewrite !negb_andb. Qed.

Lemma process_row_skip st row : accepted row = false -> process_row st row = st.
Proof. intros Hacc. unfold process_row. by rewrite accepted_negb, Hacc. Qed.

Lemma process_row_items st row :
  accepted row = true ->
  grouped_items (process_row st row) =
  dict_set (grouped_items st) (get row (lit "name"))
    (match dict_get (grouped_items st) (get row (lit "name")) with
     | None => item_of_row row
     | Some existing_item => merge_row existing_item row
     end).
Proof.
  intros Hacc. unfold process_row. rewrite accepted_negb, Hacc. simpl.
  destruct (dict_get _ _) as [it|]; [|done].
  unfold merge_row. by destruct (conflicting _ _ _).
Qed.

Lemma process_rows_snoc st rows row :
  process_rows st (rows ++ [row]) = process_row (process_rows st rows) row.
Proof. unfold process_rows. by rewrite fold_left_app. Qed.

Lemma process_rows_cons st row rows :
  process_rows st (row :: rows) = process_rows (process_row st row) rows.
Proof. reflexivity. Qed.

Lemma process_rows_app st rows more :
  process_rows st (rows ++ more) = process_rows (process_rows st rows) more.
Proof. unfold process_rows. by rewrite fold_left_app. Qed.

(** What the dict holds after the loop: its keys are the accepted names
    at their first occurrence, and each key maps to the item built from
    the rows of its group alone. *)
Lemma process_rows_spec rows :
  let d := grouped_items (process_rows (mkState [] []) rows) in
  dict_keys d = first_occurrences (accepted_names rows) /\
  forall n, dict_get d n = item_of_group (group n rows).
Proof.
  induction rows as [|row rows IH] using rev_ind; [done|].
  destruct IH as [IHk IHg]. cbv zeta.
  rewrite process_rows_snoc.
  set (st := process_rows (mkState [] []) rows) in *.
  rewrite accepted_names_snoc.
  destruct (accepted row) eqn:Hacc.
  - rewrite process_row_items by done.
    set (name := get row (lit "name")). split.
    + rewrite first_occurrences_snoc, <- IHk.
      destruct (dict_get (grouped_items st) name) as [it|] eqn:Hget.
      * rewrite decide_True.
        -- eapply dict_keys_set_old; eauto.
        -- apply elem_of_first_occurrences. rewrite <- IHk.
           eapply dict_get_Some_keys; eauto.
      * rewrite decide_False.
        -- by apply dict_keys_set_new.
        -- rewrite <- elem_of_first_occurrences, <- IHk.
           by apply dict_get_None_keys.
    + intros n. rewrite dict_get_set, group_snoc.
      unfold in_group. rewrite Hacc. simpl. fold name.
      destruct (decide (n = name)) as [->|Hne].
      * rewrite bool_decide_eq_true_2 by done.
        rewrite item_of_group_snoc, <- IHg.
        by destruct (dict_get _ _).
      * rewrite bool_decide_eq_false_2 by congruence. rewrite app_nil_r. apply IHg.
  - rewrite process_row_skip by done. rewrite app_nil_r. split; [done|].
    intros n. rewrite group_snoc. unfold in_group. rewrite Hacc. simpl.
    rewrite app_nil_r. apply IHg.
Qed.

Lemma item_of_group_name n rows it :
  item_of_group (group n rows) = Some it -> Item.name it = n.
Proof.
  destruct (group n rows) as [|row rest] eqn:E; [done|].
  rewrite item_of_group_cons. intros [= <-].
  destruct (merge_rows_frame rest (item_of_row row)) as (_ & -> & _).
  simpl. eapply group_head. by rewrite E.
Qed.

Lemma find_by_name (d : list (pyval * Item.t)) n :
  (forall k v, (k, v) ∈ d -> Item.name v = k) ->
  List.find (fun it => bool_decide (Item.name it = n)) (dict_values d) = dict_get d n.
Proof.
  induction d as [|[k v] d IH]; simpl; [done|]. intros Hname.
  rewrite (Hname k v) by left.
  destruct (decide (n = k)) as [->|Hne].
  - by rewrite bool_decide_eq_true_2.
  - rewrite bool_decide_eq_false_2 by congruence.
    apply IH. intros; apply Hname. by right.
Qed.

(** The items of the output, read through the grouping. *)
Lemma convert_spec rows :
  map Item.name (items (convert rows)) = first_occurrences (accepted_names rows) /\
  forall n, find_item (convert rows) n = item_of_group (group n rows).
Proof.
  destruct (process_rows_spec rows) as [Hk Hg]. cbv zeta in *.
  set (d := grouped_items (process_rows (mkState [] []) rows)) in *.
  assert (Hname : forall k v, (k, v) ∈ d -> Item.name v = k).
  { intros k v Hin. eapply item_of_group_name. rewrite <- Hg.
    apply dict_get_elem; [|done]. rewrite Hk. apply NoDup_first_occurrences. }
  split.
  - rewrite <- Hk. unfold convert, bitwarden_output. simpl. fold d.
    unfold dict_values, dict_keys. rewrite map_map.
    apply map_ext_in. intros [k v] Hin. simpl. apply Hname.
    by apply list_elem_of_In.
  - intros n. rewrite <- Hg. unfold find_item, convert, bitwarden_output. simpl.
    by apply find_by_name.
Qed.

Lemma convert_items_elem rows it :
  it ∈ items (convert rows) <-> exists n, item_of_group (group n rows) = Some it.
Proof.
  destruct (process_rows_spec rows) as [Hk Hg]. cbv zeta in *.
  unfold convert, bitwarden_output. simpl. split.
  - intros Hin. apply dict_values_get in Hin as [k Hk'].
    + exists k. by rewrite <- Hg.
    + rewrite Hk. apply NoDup_first_occurrences.
  - intros [n Hn]. rewrite <- Hg in Hn. eapply dict_get_values; eauto.
Qed.

Lemma find_item_unique rows n it it' :
  find_item (convert rows) n = Some it ->
  it' ∈ items (convert rows) -> Item.name it' = n -> it' = it.
Proof.
  destruct (convert_spec rows) as [_ Hg]. rewrite Hg. intros Hit Hin Hn.
  apply convert_items_elem in Hin as [n' Hn'].
  pose proof (item_of_group_name _ _ _ Hn') as Heq.
  rewrite Hn in Heq. subst n'. congruence.
Qed.

(** ** The claims on the grouping *)

(** C1. For every group, that is every name [n] borne by an accepted row,
    the output holds one item named [n], and its username and password are
    those of the first accepted row bearing [n], whatever rows follow
    ([more]), conflicting or not. *)
Theorem first_seen_credentials_win (rows more : list Row) (n : pyval) (row : Row) :
  head (group n rows) = Some row ->
  exists it,
    find_item (convert (rows ++ more)) n = Some it /\
    Login.username (Item.login it) = get row (lit "username") /\
    Login.password (Item.login it) = get row (lit "password") /\
    forall it', it' ∈ items (convert (rows ++ more)) -> Item.name it' = n -> it' = it.
Proof.
  intros Hhd. destruct (convert_spec (rows ++ more)) as [_ Hg].
  pose proof (Hg n) as Hn. rewrite group_app in Hn.
  destruct (group n rows) as [|r rest] eqn:E; [done|]. injection Hhd as ->.
  simpl in Hn. rewrite item_of_group_cons in Hn.
  eexists. split; [exact Hn|]. rewrite merge_rows_login. simpl.
  repeat split. intros it' Hin Hname. eapply find_item_unique; eauto.
Qed.

(** C2. For every group, the uris of its item are the urls of the accepted
    rows bearing its name, one entry per row, in input order, duplicates
    kept. *)
Theorem uris_follow_the_rows (rows : list Row) (n : pyval) :
  n ∈ accepted_names rows ->
  exists it,
    find_item (convert rows) n = Some it /\
    Login.uris (Item.login it)
    = map (fun row => UriEntry.mk (get row (lit "url")) None) (group n rows) /\
    length (Login.uris (Item.login it)) = length (group n rows) /\
    forall i,
      UriEntry.uri <$> (Login.uris (Item.login it) !! i)
      = (fun row => get row (lit "url")) <$> (group n rows !! i).
Proof.
  intros Hn. destruct (convert_spec rows) as [_ Hg]. rewrite Hg.
  destruct (group n rows) as [|row rest] eqn:E.
  { apply group_nil_iff in E. done. }
  rewrite item_of_group_cons. eexists. split; [reflexivity|].
  rewrite merge_rows_login. simpl. split; [done|]. split.
  - by rewrite length_map.
  - intros [|i]; [done|]. simpl.
    change (map ?f ?l) with (f <$> l). rewrite list_lookup_fmap.
    by destruct (rest !! i).
Qed.

(** C3. The output holds exactly one item per distinct name among the
    accepted rows (those whose name, url and username are all non-empty),
    in the order in which the names first occur in the input. *)
Theorem one_item_per_name_in_first_seen_order (rows : list Row) :
  let names := map Item.name (items (convert rows)) in
  names = first_occurrences (accepted_names rows) /\
  NoDup names /\
  (forall n, n ∈ names <->
     exists row, row ∈ rows /\ get row (lit "name") = n /\
       truthy (get row (lit "name")) = true /\ truthy (get row (lit "url")) = true /\
       truthy (get row (lit "username")) = true) /\
  (forall i j a b, names !! i = Some a -> names !! j = Some b -> i < j ->
     exists p, accepted_names rows !! p = Some a /\ b ∉ take (S p) (accepted_names rows)).
Proof.
  destruct (convert_spec rows) as [Hk _]. cbv zeta. rewrite Hk.
  split; [done|]. split; [apply NoDup_first_occurrences|]. split.
  - intros n. rewrite elem_of_first_occurrences, elem_of_accepted_names.
    unfold accepted. split.
    + intros (row & Hin & Hacc & Hn). exists row.
      apply andb_true_iff in Hacc as [Hacc ?]. apply andb_true_iff in Hacc as [? ?].
      auto.
    + intros (row & Hin & Hn & H1 & H2 & H3). exists row. by rewrite H1, H2, H3.
  - intros i j a b. apply first_occurrences_order.
Qed.

Lemma empty_or_absent_falsy v : empty_or_absent v <-> truthy v = false.
Proof.
  unfold empty_or_absent. destruct v as [[|c s]|]; simpl; split; try done; auto.
  - intros [|]; done.
Qed.

Lemma not_accepted_iff row :
  accepted row = false <->
  empty_or_absent (get row (lit "name")) \/ empty_or_absent (get row (lit "url"))
  \/ empty_or_absent (get row (lit "username")).
Proof.
  rewrite !empty_or_absent_falsy. unfold accepted.
  rewrite !andb_false_iff. tauto.
Qed.

(** C5. A row whose name, url or username is empty or absent is skipped:
    the loop body leaves the whole state as it found it (no item created,
    no uri appended, no item changed, nothing printed), and the output is
    the one of the input without that row. *)
Theorem invalid_rows_are_skipped (st : State) (row : Row) (before after : list Row) :
  empty_or_absent (get row (lit "name")) \/ empty_or_absent (get row (lit "url"))
  \/ empty_or_absent (get row (lit "username")) ->
  process_row st row = st /\
  convert (before ++ row :: after) = convert (before ++ after).
Proof.
  intros Hbad. apply not_accepted_iff in Hbad. split.
  - by apply process_row_skip.
  - unfold convert. rewrite !process_rows_app, process_rows_cons.
    by rewrite process_row_skip.
Qed.

(** C8. Every item of the output has type 1 (Bitwarden's login type),
    favorite false, totp unset, no fields, and every uri entry has match
    unset; the document has encrypted false and no folders. *)
Theorem output_has_fixed_shape (rows : list Row) :
  encrypted (convert rows) = false /\
  folders (convert rows) = [] /\
  forall it, it ∈ items (convert rows) ->
    Item.type it = 1%Z /\ Item.favorite it = false /\
    Login.totp (Item.login it) = None /\ Item.fields it = [] /\
    forall u, u ∈ Login.uris (Item.login it) -> UriEntry.match_ u = None.
Proof.
  split; [done|]. split; [done|]. intros it Hin.
  apply convert_items_elem in Hin as [n Hn].
  destruct (group n rows) as [|row rest]; [done|].
  rewrite item_of_group_cons in Hn. injection Hn as <-.
  destruct (merge_rows_frame rest (item_of_row row)) as (-> & _ & -> & ->).
  rewrite merge_rows_login. simpl. repeat split.
  intros u. rewrite elem_of_cons. intros [->|Hu]; [done|].
  change (map ?f ?l) with (f <$> l) in Hu.
  apply list_elem_of_fmap in Hu as (r & -> & _). done.
Qed.

(** ** Strings *)

Lemma startswith_app s t : startswith (s ++ t) s = true.
Proof.
  induction s as [|c s IH]; simpl; [by destruct t|]. by rewrite N.eqb_refl.
Qed.

Lemma contains_here hay needle : startswith hay needle = true -> contains hay needle = true.
Proof. destruct hay; simpl; intros ->; done. Qed.

Lemma contains_app a s b : contains (a ++ s ++ b) s = true.
Proof.
  induction a as [|c a IH]; simpl.
  - apply contains_here, startswith_app.
  - rewrite IH. apply orb_true_r.
Qed.

Lemma lstrip_keeps u c w :
  isspace c = false -> lstrip (u ++ c :: w) = lstrip u ++ c :: w.
Proof.
  intros Hc. induction u as [|h u IH]; simpl.
  - by rewrite Hc.
  - by destruct (isspace h).
Qed.

(** Trailing white space is looked for only after the last character
    that is not white space. *)
Lemma rstrip_keeps a c b :
  isspace c = false -> rstrip (a ++ c :: b) = a ++ c :: rstrip b.
Proof.
  intros Hc. unfold rstrip.
  rewrite rev_app_distr. simpl. rewrite <- app_assoc. simpl.
  rewrite lstrip_keeps by done.
  rewrite rev_app_distr. simpl. rewrite rev_involutive.
  by rewrite <- app_assoc.
Qed.

(** The trimmed block: the two leading line feeds go, and so does
    whatever white space ends the [Username:] line. *)
Lemma strip_conflict_note url username :
  strip (conflict_note url username) =
  marker ++ nl ++
  lit "An entry for the URL below had different credentials and was not merged automatically:"
  ++ nl ++ lit "URL: " ++ format url ++ nl ++ lit "Username:"
  ++ rstrip (lit " " ++ format username ++ nl).
Proof.
  unfold strip.
  set (a := lit "An entry for the URL below had different credentials and was not merged automatically:").
  assert (Hl : lstrip (conflict_note url username) =
    (marker ++ nl ++ a ++ nl ++ lit "URL: " ++ format url ++ nl ++ lit "Username")
    ++ 58%N :: (lit " " ++ format username ++ nl)).
  { rewrite <- !app_assoc. reflexivity. }
  rewrite Hl, rstrip_keeps by done.
  rewrite <- !app_assoc. reflexivity.
Qed.

Lemma strip_conflict_note_nonempty url username :
  strip (conflict_note url username) <> [].
Proof.
  rewrite strip_conflict_note. intros H.
  apply app_eq_nil in H as [H _]. vm_compute in H. discriminate.
Qed.

Lemma conflict_note_parts url username :
  startswith (conflict_note url username) (nl ++ nl) = true /\
  contains (conflict_note url username) marker = true /\
  contains (conflict_note url username) (format url) = true /\
  contains (conflict_note url username) (format username) = true.
Proof.
  unfold conflict_note. split; [done|]. split; [|split].
  - apply (contains_app (nl ++ nl) marker).
  - set (a := lit "An entry for the URL below had different credentials and was not merged automatically:").
    replace (nl ++ nl ++ lit "--- AUTO-MERGE WARNING ---" ++ nl ++ a ++ nl ++ lit "URL: "
             ++ format url ++ nl ++ lit "Username: " ++ format username ++ nl)
      with ((nl ++ nl ++ lit "--- AUTO-MERGE WARNING ---" ++ nl ++ a ++ nl ++ lit "URL: ")
            ++ format url ++ (nl ++ lit "Username: " ++ format username ++ nl))
      by (by rewrite <- !app_assoc).
    apply contains_app.
  - set (a := lit "An entry for the URL below had different credentials and was not merged automatically:").
    replace (nl ++ nl ++ lit "--- AUTO-MERGE WARNING ---" ++ nl ++ a ++ nl ++ lit "URL: "
             ++ format url ++ nl ++ lit "Username: " ++ format username ++ nl)
      with ((nl ++ nl ++ lit "--- AUTO-MERGE WARNING ---" ++ nl ++ a ++ nl ++ lit "URL: "
             ++ format url ++ nl ++ lit "Username: ")
            ++ format username ++ nl)
      by (by rewrite <- !app_assoc).
    apply contains_app.
Qed.

(** ** A row of an existing group *)

Lemma conflicting_true_iff it username password :
  conflicting it username password = true <->
  Login.username (Item.login it) <> username \/ Login.password (Item.login it) <> password.
Proof. unfold conflicting. by rewrite orb_true_iff, !bool_decide_eq_true. Qed.

Lemma conflicting_false_iff it username password :
  conflicting it username password = false <->
  Login.username (Item.login it) = username /\ Login.password (Item.login it) = password.
Proof.
  unfold conflicting. rewrite orb_false_iff, !bool_decide_eq_false.
  split; intros [H1 H2]; split; try congruence.
  - by destruct (decide (Login.username (Item.login it) = username)).
  - by destruct (decide (Login.password (Item.login it) = password)).
Qed.

Lemma process_row_existing st row it0 :
  accepted row = true ->
  dict_get (grouped_items st) (get row (lit "name")) = Some it0 ->
  process_row st row =
  if conflicting it0 (get row (lit "username")) (get row (lit "password")) then
    mkState
      (dict_set (grouped_items st) (get row (lit "name"))
         (annotate (append_uri it0 (get row (lit "url")))
            (conflict_note (get row (lit "url")) (get row (lit "username")))))
      (printed st ++ [WarningConflict (get row (lit "name"));
                      WarningUrl (get row (lit "url")); WarningSticking])
  else
    mkState
      (dict_set (grouped_items st) (get row (lit "name"))
         (append_uri it0 (get row (lit "url"))))
      (printed st).
Proof.
  intros Hacc Hget. unfold process_row. rewrite accepted_negb, Hacc, Hget. simpl.
  by rewrite conflicting_append_uri.
Qed.

Lemma annotate_notes it note :
  Item.notes (annotate it note) =
  match Item.notes it with
  | Some (c :: notes) => Some ((c :: notes) ++ note)
  | _ => Some (strip note)
  end.
Proof. unfold annotate. by destruct (Item.notes it) as [[|c s]|]. Qed.

Lemma annotate_changes_notes it url username :
  Item.notes (annotate it (conflict_note url username)) <> Item.notes it.
Proof.
  rewrite annotate_notes. destruct (Item.notes it) as [[|c s]|]; try done.
  - intros [= H]. by apply strip_conflict_note_nonempty in H.
  - intros [= H]. apply (f_equal length) in H.
    rewrite length_app in H. unfold conflict_note in H.
    rewrite !length_app in H. simpl in H. lia.
Qed.

Lemma process_row_keeps_credentials st row n it :
  dict_get (grouped_items st) n = Some it ->
  exists it',
    dict_get (grouped_items (process_row st row)) n = Some it' /\
    Login.username (Item.login it') = Login.username (Item.login it) /\
    Login.password (Item.login it') = Login.password (Item.login it).
Proof.
  intros Hget. destruct (accepted row) eqn:Hacc.
  - rewrite process_row_items, dict_get_set by done.
    destruct (decide (n = get row (lit "name"))) as [->|Hne]; [|eauto].
    rewrite Hget. eexists. split; [done|]. by rewrite merge_row_login.
  - rewrite process_row_skip by done. eauto.
Qed.

Lemma process_rows_keep_credentials more : forall st n it,
  dict_get (grouped_items st) n = Some it ->
  exists it',
    dict_get (grouped_items (process_rows st more)) n = Some it' /\
    Login.username (Item.login it') = Login.username (Item.login it) /\
    Login.password (Item.login it') = Login.password (Item.login it).
Proof.
  induction more as [|row more IH]; intros st n it Hget; simpl; [eauto|].
  destruct (process_row_keeps_credentials st row n it Hget) as (it1 & H1 & Hu & Hp).
  destruct (IH _ _ _ H1) as (it' & H' & Hu' & Hp').
  exists it'. split; [done|]. split; congruence.
Qed.

(** The notes of the item of an existing group after one more row. *)
Lemma existing_row_notes st row it0 :
  accepted row = true ->
  dict_get (grouped_items st) (get row (lit "name")) = Some it0 ->
  exists it,
    dict_get (grouped_items (process_row st row)) (get row (lit "name")) = Some it /\
    Item.notes it =
    if conflicting it0 (get row (lit "username")) (get row (lit "password")) then
      match Item.notes it0 with
      | Some (c :: notes) =>
          Some ((c :: notes)
                ++ conflict_note (get row (lit "url")) (get row (lit "username")))
      | _ => Some (strip (conflict_note (get row (lit "url")) (get row (lit "username"))))
      end
    else Item.notes it0.
Proof.
  intros Hacc Hget. rewrite (process_row_existing st row it0 Hacc Hget).
  destruct (conflicting it0 _ _); simpl; rewrite dict_get_set, decide_True by done;
    eexists; (split; [done|]); [by rewrite annotate_notes | done].
Qed.

Lemma existing_row_notes_change st row it0 :
  accepted row = true ->
  dict_get (grouped_items st) (get row (lit "name")) = Some it0 ->
  exists it,
    dict_get (grouped_items (process_row st row)) (get row (lit "name")) = Some it /\
    (Item.notes it <> Item.notes it0 <->
     Login.username (Item.login it0) <> get row (lit "username") \/
     Login.password (Item.login it0) <> get row (lit "password")).
Proof.
  intros Hacc Hget.
  destruct (existing_row_notes st row it0 Hacc Hget) as (it & Hit & Hnotes).
  exists it. split; [done|]. rewrite Hnotes, <- conflicting_true_iff.
  destruct (conflicting it0 _ _).
  - split; [done|]. intros _.
    pose proof (annotate_changes_notes it0 (get row (lit "url"))
                  (get row (lit "username"))) as Hne.
    by rewrite annotate_notes in Hne.
  - split; [done|]. done.
Qed.

(** *** The text of a block, spelled out *)

Lemma lit_text s : lit s = map N_of_ascii (list_ascii_of_string s).
Proof.
  induction s as [|a s IH]; [done|].
  change (lit (String a s)) with (N_of_ascii a :: lit s). by rewrite IH.
Qed.

Lemma isspace_iff c :
  isspace c = true <->
  c ∈ [9; 10; 11; 12; 13; 28; 29; 30; 31; 32; 133; 160; 5760; 8192; 8193; 8194;
       8195; 8196; 8197; 8198; 8199; 8200; 8201; 8202; 8232; 8233; 8239; 8287;
       12288]%N.
Proof.
  unfold isspace.
  rewrite !orb_true_iff, !andb_true_iff, !N.leb_le, !N.eqb_eq.
  rewrite !elem_of_cons, elem_of_nil. lia.
Qed.

Lemma lstrip_spec s :
  exists dropped,
    s = dropped ++ lstrip s /\
    (forall c, c ∈ dropped -> isspace c = true) /\
    (forall c, head (lstrip s) = Some c -> isspace c = false).
Proof.
  induction s as [|a s (dropped & Hs & Hdropped & Hhead)]; simpl.
  - exists []. repeat split; [|done]. intros c Hc. by apply elem_of_nil in Hc.
  - destruct (isspace a) eqn:Ha.
    + exists (a :: dropped). split; [by rewrite Hs at 1|]. split; [|done].
      intros c. rewrite elem_of_cons. intros [->|Hc]; auto.
    + exists []. split; [done|]. split.
      * intros c Hc. by apply elem_of_nil in Hc.
      * simpl. intros c [= <-]. done.
Qed.

Lemma last_rev {A} (l : list A) : last (rev l) = head l.
Proof. destruct l as [|a l]; [done|]. simpl. apply last_snoc. Qed.

Lemma rstrip_spec s :
  exists dropped,
    s = rstrip s ++ dropped /\
    (forall c, c ∈ dropped -> isspace c = true) /\
    (forall c, last (rstrip s) = Some c -> isspace c = false).
Proof.
  destruct (lstrip_spec (rev s)) as (dropped & Hs & Hdropped & Hhead).
  exists (rev dropped). unfold rstrip. split; [|split].
  - rewrite <- rev_app_distr, <- Hs. by rewrite rev_involutive.
  - intros c Hc. apply Hdropped.
    apply list_elem_of_In, in_rev. by apply list_elem_of_In.
  - intros c. rewrite last_rev. apply Hhead.
Qed.

(** C4. For a row of an existing group, the notes of the item change
    exactly when the row's username or password differs from the stored
    one. The block then added is two line feeds, the marker line, the
    sentence line, the line [URL: ] with the row's url, the line
    [Username: ] with the row's username, each closed by a line feed, and
    nothing else of the row (two conflicting rows that differ only in
    their password leave the same notes). Non-empty notes get the block
    appended. Unset notes become the trimmed block: the block without its
    two leading line feeds and without the white space that ends it, which
    is the closing line feed and whatever white space ends the username;
    when the username does not end in white space it is kept whole. *)
Theorem conflict_annotation (st : State) (row : Row) (it0 : Item.t) :
  accepted row = true ->
  dict_get (grouped_items st) (get row (lit "name")) = Some it0 ->
  let text s := map N_of_ascii (list_ascii_of_string s) in
  let white :=
    [9; 10; 11; 12; 13; 28; 29; 30; 31; 32; 133; 160; 5760; 8192; 8193; 8194;
     8195; 8196; 8197; 8198; 8199; 8200; 8201; 8202; 8232; 8233; 8239; 8287;
     12288]%N in
  let differs p :=
    Login.username (Item.login it0) <> get row (lit "username") \/
    Login.password (Item.login it0) <> p in
  exists it url username,
    get row (lit "url") = Some url /\
    get row (lit "username") = Some username /\
    dict_get (grouped_items (process_row st row)) (get row (lit "name")) = Some it /\
    (Item.notes it <> Item.notes it0 <-> differs (get row (lit "password"))) /\
    let lines :=
      text "--- AUTO-MERGE WARNING ---"%string ++ [10%N] ++
      text "An entry for the URL below had different credentials and was not merged automatically:"%string
      ++ [10%N] ++ text "URL: "%string ++ url ++ [10%N] ++ text "Username:"%string in
    (differs (get row (lit "password")) ->
     match Item.notes it0 with
     | Some (c :: notes) =>
         Item.notes it
         = Some ((c :: notes) ++ [10%N; 10%N] ++ lines ++ [32%N] ++ username ++ [10%N])
     | _ =>
         exists kept dropped,
           Item.notes it = Some (lines ++ kept) /\
           [32%N] ++ username ++ [10%N] = kept ++ dropped /\
           (forall c, c ∈ dropped -> c ∈ white) /\
           (forall c, last kept = Some c -> c ∉ white) /\
           (forall c, last username = Some c -> c ∉ white -> kept = [32%N] ++ username)
     end) /\
    (forall row' it',
       get row' (lit "name") = get row (lit "name") ->
       get row' (lit "url") = get row (lit "url") ->
       get row' (lit "username") = get row (lit "username") ->
       differs (get row (lit "password")) -> differs (get row' (lit "password")) ->
       dict_get (grouped_items (process_row st row')) (get row (lit "name")) = Some it' ->
       Item.notes it' = Item.notes it).
Proof.
  intros Hacc Hget text white differs.
  subst text white differs. cbv beta.
  destruct (existing_row_notes st row it0 Hacc Hget) as (it & Hit & Hnotes).
  destruct (existing_row_notes_change st row it0 Hacc Hget) as (it1 & Hit1 & Hiff).
  assert (it1 = it) as -> by congruence.
  pose proof Hacc as Htruthy. unfold accepted in Htruthy.
  apply andb_true_iff in Htruthy as [Htruthy Husername].
  apply andb_true_iff in Htruthy as [_ Hurl].
  destruct (get row (lit "url")) as [url|] eqn:Eurl; [|done].
  destruct (get row (lit "username")) as [username|] eqn:Eusername; [|done].
  exists it, url, username.
  split; [done|]. split; [done|]. split; [done|]. split; [done|].
  cbv zeta. rewrite <- !lit_text. split.
  - intros Hd. apply conflicting_true_iff in Hd. rewrite Hd in Hnotes.
    destruct (Item.notes it0) as [[|c notes]|] eqn:Enotes.
    + rewrite Hnotes, strip_conflict_note. cbn [format].
      destruct (rstrip_spec (lit " " ++ username ++ nl)) as (dropped & Hs & Hdropped & Hlast).
      exists (rstrip (lit " " ++ username ++ nl)), dropped.
      split; [by rewrite <- !app_assoc|]. split; [exact Hs|]. split; [|split].
      * intros c Hc. by apply isspace_iff, Hdropped.
      * intros c Hc Hwhite. apply isspace_iff in Hwhite. by rewrite (Hlast c Hc) in Hwhite.
      * intros c Hc Hwhite.
        assert (Hu : exists u, username = u ++ [c]).
        { destruct username as [|x u] using rev_ind; [done|].
          rewrite last_snoc in Hc. injection Hc as ->. by exists u. }
        destruct Hu as [u ->].
        replace (lit " " ++ (u ++ [c]) ++ nl) with ((lit " " ++ u) ++ c :: nl)
          by (by rewrite <- !app_assoc).
        rewrite rstrip_keeps.
        -- change (rstrip nl) with (@nil N). by rewrite <- !app_assoc.
        -- destruct (isspace c) eqn:Hc'; [|done]. by apply isspace_iff in Hc'.
    + rewrite Hnotes. unfold conflict_note. cbn [format]. f_equal.
      rewrite <- !app_assoc. reflexivity.
    + rewrite Hnotes, strip_conflict_note. cbn [format].
      destruct (rstrip_spec (lit " " ++ username ++ nl)) as (dropped & Hs & Hdropped & Hlast).
      exists (rstrip (lit " " ++ username ++ nl)), dropped.
      split; [by rewrite <- !app_assoc|]. split; [exact Hs|]. split; [|split].
      * intros c Hc. by apply isspace_iff, Hdropped.
      * intros c Hc Hwhite. apply isspace_iff in Hwhite. by rewrite (Hlast c Hc) in Hwhite.
      * intros c Hc Hwhite.
        assert (Hu : exists u, username = u ++ [c]).
        { destruct username as [|x u] using rev_ind; [done|].
          rewrite last_snoc in Hc. injection Hc as ->. by exists u. }
        destruct Hu as [u ->].
        replace (lit " " ++ (u ++ [c]) ++ nl) with ((lit " " ++ u) ++ c :: nl)
          by (by rewrite <- !app_assoc).
        rewrite rstrip_keeps.
        -- change (rstrip nl) with (@nil N). by rewrite <- !app_assoc.
        -- destruct (isspace c) eqn:Hc'; [|done]. by apply isspace_iff in Hc'.
  - intros row' it' Hn' Hu' Hus' Hd Hd' Hit'.
    assert (Hacc' : accepted row' = true).
    { unfold accepted in *. rewrite Hn', Hu', Hus'.
      by rewrite Eurl, Eusername in Hacc. }
    rewrite <- Hn' in Hget, Hit'.
    destruct (existing_row_notes st row' it0 Hacc' Hget) as (it2 & Hit2 & Hnotes2).
    assert (it2 = it') as -> by congruence.
    apply conflicting_true_iff in Hd, Hd'.
    rewrite Hus' in Hnotes2. rewrite Hd in Hnotes. rewrite Hd' in Hnotes2.
    rewrite Hnotes, Hnotes2, Hu'. done.
Qed.

(** C9. For an accepted row of an existing group the row's own note is
    not read: a row that differs only in its note leaves the same state
    and the same output. Such a row that does not conflict changes nothing
    but the uris of its item, which gain one entry; one that conflicts
    also changes the notes, through the block made of its url and
    username. *)
Theorem later_note_is_discarded (st : State) (row row' : Row) (it0 : Item.t)
    (before after : list Row) :
  accepted row = true ->
  dict_get (grouped_items st) (get row (lit "name")) = Some it0 ->
  get row' (lit "name") = get row (lit "name") ->
  get row' (lit "url") = get row (lit "url") ->
  get row' (lit "username") = get row (lit "username") ->
  get row' (lit "password") = get row (lit "password") ->
  let name := get row (lit "name") in
  let url := get row (lit "url") in
  let username := get row (lit "username") in
  let password := get row (lit "password") in
  let appended :=
    {| Item.type := Item.type it0;
       Item.name := Item.name it0;
       Item.notes := Item.notes it0;
       Item.favorite := Item.favorite it0;
       Item.login :=
         {| Login.uris := Login.uris (Item.login it0) ++ [UriEntry.mk url None];
            Login.username := Login.username (Item.login it0);
            Login.password := Login.password (Item.login it0);
            Login.totp := Login.totp (Item.login it0) |};
       Item.fields := Item.fields it0 |} in
  process_row st row' = process_row st row /\
  (name ∈ accepted_names before ->
   convert (before ++ row' :: after) = convert (before ++ row :: after)) /\
  (Login.username (Item.login it0) = username ->
   Login.password (Item.login it0) = password ->
   process_row st row =
   mkState (dict_set (grouped_items st) name appended) (printed st)) /\
  (Login.username (Item.login it0) <> username \/
   Login.password (Item.login it0) <> password ->
   grouped_items (process_row st row) =
   dict_set (grouped_items st) name
     (set_notes appended
        (match Item.notes it0 with
         | Some (c :: notes) => Some ((c :: notes) ++ conflict_note url username)
         | _ => Some (strip (conflict_note url username))
         end))).
Proof.
  intros Hacc Hget Hn Hu Hus Hp name url username password appended.
  subst name url username password.
  assert (Hacc' : accepted row' = true).
  { unfold accepted in *. by rewrite Hn, Hu, Hus. }
  assert (Hstep : forall st0 it,
    dict_get (grouped_items st0) (get row (lit "name")) = Some it ->
    process_row st0 row' = process_row st0 row).
  { intros st0 it H0.
    rewrite (process_row_existing st0 row it Hacc H0).
    rewrite <- Hn in H0.
    rewrite (process_row_existing st0 row' it Hacc' H0).
    by rewrite Hn, Hu, Hus, Hp. }
  split; [by eapply Hstep|]. split; [|split].
  - intros Hin. unfold convert. rewrite !process_rows_app, !process_rows_cons.
    destruct (process_rows_spec before) as [_ Hg]. cbv zeta in Hg.
    destruct (dict_get (grouped_items (process_rows (mkState [] []) before))
                (get row (lit "name"))) as [it|] eqn:E.
    + by rewrite (Hstep _ it E).
    + rewrite Hg in E. exfalso.
      destruct (group (get row (lit "name")) before) as [|r rs] eqn:Eg.
      * by apply group_nil_iff in Eg.
      * by rewrite item_of_group_cons in E.
  - intros Hcu Hcp. rewrite (process_row_existing st row it0 Hacc Hget).
    assert (Hc : conflicting it0 (get row (lit "username")) (get row (lit "password"))
                 = false)
      by by apply conflicting_false_iff.
    by rewrite Hc.
  - intros Hd. rewrite (process_row_existing st row it0 Hacc Hget).
    apply conflicting_true_iff in Hd. rewrite Hd. simpl.
    f_equal. unfold annotate. simpl. by destruct (Item.notes it0) as [[|c s]|].
Qed.

(** C10, as it holds on the code. A row whose password is empty or absent
    and whose name, url and username are non-empty is accepted. The group
    it creates stores the password as the row has it, the empty string if
    empty and [None] if absent, and keeps it whatever rows follow; in an
    existing group the row changes the notes exactly when its username or
    its password differs from the stored one. *)
Theorem empty_password_row_is_accepted (st : State) (row : Row) (more : list Row) :
  truthy (get row (lit "name")) = true ->
  truthy (get row (lit "url")) = true ->
  truthy (get row (lit "username")) = true ->
  empty_or_absent (get row (lit "password")) ->
  let name := get row (lit "name") in
  accepted row = true /\
  (dict_get (grouped_items st) name = None ->
   exists it it',
     dict_get (grouped_items (process_row st row)) name = Some it /\
     Login.password (Item.login it) = get row (lit "password") /\
     dict_get (grouped_items (process_rows (process_row st row) more)) name = Some it' /\
     Login.password (Item.login it') = get row (lit "password")) /\
  (forall it0, dict_get (grouped_items st) name = Some it0 ->
   exists it,
     dict_get (grouped_items (process_row st row)) name = Some it /\
     (Item.notes it <> Item.notes it0 <->
      Login.username (Item.login it0) <> get row (lit "username") \/
      Login.password (Item.login it0) <> get row (lit "password"))).
Proof.
  intros Hn Hu Hus _ name.
  assert (Hacc : accepted row = true) by (unfold accepted; by rewrite Hn, Hu, Hus).
  split; [done|]. split.
  - intros Hnone.
    assert (Hit : dict_get (grouped_items (process_row st row)) name
                  = Some (item_of_row row)).
    { rewrite process_row_items, dict_get_set, decide_True by done.
      fold name. by rewrite Hnone. }
    destruct (process_rows_keep_credentials more _ _ _ Hit) as (it' & H' & _ & Hp').
    exists (item_of_row row), it'. done.
  - intros it0 Hget.
    apply (existing_row_notes_change st row it0 Hacc Hget).
Qed.

(** C10, as stated, fails on a row whose password is absent: the row is
    accepted and creates its group, and the password the group stores is
    [None] (written [null]), not the empty string. *)
Lemma absent_password_is_stored_as_None :
  accepted short_row = true /\
  empty_or_absent (get short_row (lit "password")) /\
  dict_get (grouped_items (mkState [] [])) (get short_row (lit "name")) = None /\
  exists it,
    dict_get (grouped_items (process_row (mkState [] []) short_row))
      (get short_row (lit "name")) = Some it /\
    Login.password (Item.login it) = None /\
    Login.password (Item.login it) <> Some [].
Proof.
  split; [by vm_compute|]. split; [by left; vm_compute|]. split; [done|].
  eexists. split; [by vm_compute|]. done.
Qed.

(** ** The claims on failures *)

Lemma has_expected_headers_false fieldnames :
  (exists h, h ∈ expected_headers /\ h ∉ fieldnames) ->
  has_expected_headers fieldnames = false.
Proof.
  intros (h & Hh & Hni). unfold has_expected_headers.
  apply not_true_is_false. intros Hall.
  rewrite forallb_forall in Hall. apply list_elem_of_In, Hall in Hh.
  by apply bool_decide_eq_true in Hh.
Qed.

(** *** Standard output *)

Lemma emit_all console lines : forall out,
  (forall out line, accepts console out line = true) ->
  emit console out lines = (out ++ lines, true).
Proof.
  induction lines as [|line lines IH]; intros out Hall; simpl.
  - by rewrite app_nil_r.
  - rewrite Hall, IH by done. by rewrite <- app_assoc.
Qed.

Lemma emit_app console l1 l2 : forall out,
  emit console out (l1 ++ l2) =
  let (out', taken) := emit console out l1 in
  if taken then emit console out' l2 else (out', false).
Proof.
  induction l1 as [|line l1 IH]; intros out; simpl; [done|].
  destruct (accepts console out line); [apply IH | done].
Qed.

Lemma emit_one console line :
  emit console [] [line] = if accepts console [] line then ([line], true) else ([], false).
Proof. reflexivity. Qed.

Lemma emit_first console line lines :
  emit console [] (line :: lines) =
  if accepts console [] line then emit console [line] lines else ([], false).
Proof. reflexivity. Qed.

Lemma emit_taken console lines : forall out out',
  emit console out lines = (out', true) -> out' = out ++ lines.
Proof.
  induction lines as [|line lines IH]; intros out out'; simpl.
  - intros [= <-]. by rewrite app_nil_r.
  - destruct (accepts console out line); [|done].
    intros H. apply IH in H. by rewrite <- app_assoc in H.
Qed.

(** What the body of the first [try] leaves, by kind of input. *)
Lemma read_body_rows source rows :
  rows_read source = Some rows ->
  read_body source (mkState [] []) = (process_rows (mkState [] []) rows, Normal).
Proof.
  unfold rows_read, read_body.
  destruct source as [| |[fieldnames|] rs [|]]; try done;
    destruct (has_expected_headers fieldnames); try done. by intros [= ->].
Qed.

Lemma read_body_failure source :
  rows_read source = None ->
  exists st c,
    read_body source (mkState [] []) = (st, c) /\
    (c = FileNotFoundError \/ c = Exception \/ c = SystemExit 1).
Proof.
  unfold rows_read, read_body.
  destruct source as [| |[fieldnames|] rs [|]]; try (eexists _, _; by eauto);
    destruct (has_expected_headers fieldnames); try done; eexists _, _; by eauto.
Qed.

Ltac run_cases :=
  repeat (simpl;
          match goal with
          | |- context [accepts ?c ?o ?l] => destruct (accepts c o l) eqn:?
          | |- context [emit ?c ?o ?l] => destruct (emit c o l) as [? []] eqn:?
          | |- context [flushes ?c ?o] => destruct (flushes c o) eqn:?
          end);
  simpl.

(** Whatever stdout does, a run that meets a failure ends with a status
    other than 0, which is 1 when stdout can be flushed. *)
Lemma run_failure_status console input_csv_path output_json_path source sink file :
  rows_read source = None \/ sink <> Writable ->
  let outcome :=
    convert_google_to_bitwarden console input_csv_path output_json_path source sink file in
  status outcome <> 0%Z /\
  (flushes console (stdout outcome) = true -> status outcome = 1%Z).
Proof.
  intros Hfail. cbv zeta.
  unfold convert_google_to_bitwarden, read_phase, write_phase, handler, exit_status.
  destruct (rows_read source) as [rows|] eqn:Hread.
  - destruct Hfail as [|Hsink]; [done|].
    rewrite (read_body_rows _ _ Hread).
    destruct sink; [| |done]; run_cases; split; congruence.
  - destruct (read_body_failure _ Hread) as (st & c & -> & [->|[->| ->]]);
      run_cases; split; congruence.
Qed.

(** Whatever stdout does, the output file is left as it was unless the
    input was read to its end and the output could be opened. *)
Lemma run_file_untouched console input_csv_path output_json_path source sink file :
  rows_read source = None \/ sink = Unwritable ->
  output_file
    (convert_google_to_bitwarden console input_csv_path output_json_path source sink file)
  = file.
Proof.
  intros Hfail.
  unfold convert_google_to_bitwarden, read_phase, write_phase, handler, exit_status.
  destruct (rows_read source) as [rows|] eqn:Hread.
  - destruct Hfail as [|Hsink]; [done|]. subst sink.
    rewrite (read_body_rows _ _ Hread). by run_cases.
  - destruct (read_body_failure _ Hread) as (st & c & -> & [->|[->| ->]]);
      by run_cases.
Qed.


(** The run on a stdout that takes every line and can be flushed. *)
Lemma run_reliable console input_csv_path output_json_path source sink file :
  reliable console ->
  convert_google_to_bitwarden console input_csv_path output_json_path source sink file =
  match read_body source (mkState [] []) with
  | (st, Normal) =>
      match sink with
      | Unwritable =>
          mkOutcome 1 file
            (ReadingFrom input_csv_path :: printed st ++ [ErrorCouldNotWrite])
      | FailsAfter written =>
          mkOutcome 1
            (Some (take written (Json.dumps (bitwarden_output (grouped_items st)))))
            (ReadingFrom input_csv_path :: printed st ++ [ErrorCouldNotWrite])
      | Writable =>
          mkOutcome 0 (Some (Json.dumps (bitwarden_output (grouped_items st))))
            (ReadingFrom input_csv_path :: printed st ++
             [SuccessRule; SuccessReady; SuccessProcessed (length (grouped_items st));
              SuccessCreatedAt output_json_path; SuccessRule])
      end
  | (st, FileNotFoundError) =>
      mkOutcome 1 file
        (ReadingFrom input_csv_path :: printed st ++ [ErrorNotFound input_csv_path])
  | (st, Exception) =>
      mkOutcome 1 file (ReadingFrom input_csv_path :: printed st ++ [ErrorUnexpected])
  | (st, SystemExit code) =>
      mkOutcome code file (ReadingFrom input_csv_path :: printed st)
  end.
Proof.
  intros [Haccepts Hflushes].
  unfold convert_google_to_bitwarden, read_phase, write_phase, handler, exit_status.
  destruct (read_body source (mkState [] [])) as [st c].
  rewrite !(emit_all console) by done. cbn [app].
  destruct c; cbn [printed grouped_items];
    try destruct sink; rewrite ?(emit_all console) by done;
    rewrite ?Hflushes; cbn [app]; rewrite <- ?app_assoc; reflexivity.
Qed.

(** C6, as stated, fails on the code. A header that lacks [password] alone
    makes the run print the expected headers, all four of them, and the
    headers found: no line names the missing field by itself. An empty
    file, which declares no header at all, does not reach the schema error:
    the run prints the line of the unexpected error. *)
Lemma schema_error_prints_expected_and_found :
  let found := [lit "name"; lit "url"; lit "username"] in
  let missing :=
    List.filter (fun h => negb (bool_decide (h ∈ found))) expected_headers in
  missing = [lit "password"] /\
  stdout (convert_google_to_bitwarden terminal (lit "in.csv") (lit "out.json")
            (Csv (Some found) rows_A false) Writable None)
  = [ReadingFrom (lit "in.csv"); ErrorBadFormat;
     ExpectedHeaders [lit "name"; lit "url"; lit "username"; lit "password"];
     FoundHeaders [lit "name"; lit "url"; lit "username"]] /\
  [lit "name"; lit "url"; lit "username"; lit "password"] <> missing /\
  found <> missing /\
  stdout (convert_google_to_bitwarden terminal (lit "in.csv") (lit "out.json")
            (Csv None [] false) Writable None)
  = [ReadingFrom (lit "in.csv"); ErrorUnexpected].
Proof. vm_compute. repeat split; (reflexivity || discriminate). Qed.

(** C6, as it holds on the code. When the header is present and lacks one
    of the four required field names, the run ends with a status other
    than 0 and leaves the output file as it was, whatever stdout does; no
    row is looked at (the outcome is the same whatever the rows and the
    sink are); on a stdout that takes every line and can be flushed it
    prints the format error with the expected headers and the headers
    found, and the status is 1. *)
Theorem missing_header_aborts (console : Console)
    (input_csv_path output_json_path : list N)
    (fieldnames : list (list N)) (rows : list Row) (broken : bool)
    (sink : Sink) (file : option (list N)) :
  (exists h, h ∈ expected_headers /\ h ∉ fieldnames) ->
  let outcome :=
    convert_google_to_bitwarden console input_csv_path output_json_path
      (Csv (Some fieldnames) rows broken) sink file in
  status outcome <> 0%Z /\
  output_file outcome = file /\
  (forall rows' broken' sink',
     convert_google_to_bitwarden console input_csv_path output_json_path
       (Csv (Some fieldnames) rows' broken') sink' file = outcome) /\
  (reliable console ->
   outcome = mkOutcome 1 file
     [ReadingFrom input_csv_path; ErrorBadFormat;
      ExpectedHeaders [lit "name"; lit "url"; lit "username"; lit "password"];
      FoundHeaders fieldnames]).
Proof.
  intros Hmiss. apply has_expected_headers_false in Hmiss. cbv zeta.
  assert (Hread : forall rs b, rows_read (Csv (Some fieldnames) rs b) = None).
  { intros rs b. unfold rows_read. rewrite Hmiss. by destruct b. }
  split; [|split; [|split]].
  - apply run_failure_status. left. apply Hread.
  - apply run_file_untouched. left. apply Hread.
  - intros rows' broken' sink'.
    unfold convert_google_to_bitwarden, read_phase, read_body, handler, exit_status.
    rewrite Hmiss. by run_cases.
  - intros Hrel. rewrite (run_reliable _ _ _ _ _ _ Hrel).
    unfold read_body. by rewrite Hmiss.
Qed.




(** * Further properties of the code *)

(** ** Counting the uris *)

Lemma sum_dict_set {K V} `{EqDecision K} (f : V -> nat) (d : list (K * V)) k v :
  sum_list_with f (dict_values (dict_set d k v))
  + match dict_get d k with Some v0 => f v0 | None => 0 end
  = sum_list_with f (dict_values d) + f v.
Proof.
  induction d as [|[k1 v1] d IH]; simpl; [lia|].
  destruct (decide (k = k1)); simpl; lia.
Qed.

Lemma merge_row_uris_length it row :
  length (Login.uris (Item.login (merge_row it row)))
  = S (length (Login.uris (Item.login it))).
Proof. rewrite merge_row_login. simpl. rewrite length_app. simpl. lia. Qed.

(** X1. Every accepted row leaves exactly one uri entry in the output and
    no other row leaves any: the uri entries of all items together are as
    many as the accepted rows. *)
Theorem uris_count_accepted_rows (rows : list Row) :
  count_uris (convert rows) = length (List.filter accepted rows).
Proof.
  unfold count_uris, convert, bitwarden_output. simpl.
  induction rows as [|row rows IH] using rev_ind; [done|].
  rewrite process_rows_snoc, List.filter_app, length_app. simpl.
  set (st := process_rows (mkState [] []) rows) in *.
  destruct (accepted row) eqn:Hacc; simpl.
  - rewrite process_row_items by done.
    pose proof (sum_dict_set (fun it => length (Login.uris (Item.login it)))
                  (grouped_items st) (get row (lit "name"))
                  (match dict_get (grouped_items st) (get row (lit "name")) with
                   | None => item_of_row row
                   | Some existing_item => merge_row existing_item row
                   end)) as Hsum.
    destruct (dict_get (grouped_items st) (get row (lit "name"))) as [it|].
    + rewrite merge_row_uris_length in Hsum. lia.
    + simpl in Hsum. lia.
  - rewrite process_row_skip by done. lia.
Qed.

(** ** The items are well formed *)

Lemma group_all_accepted n rows :
  Forall (fun row => accepted row = true /\ get row (lit "name") = n) (group n rows).
Proof.
  apply Forall_forall. intros row Hin. apply elem_of_group in Hin. tauto.
Qed.

Lemma accepted_truthy row :
  accepted row = true ->
  truthy (get row (lit "name")) = true /\ truthy (get row (lit "url")) = true /\
  truthy (get row (lit "username")) = true.
Proof.
  unfold accepted. rewrite !andb_true_iff. tauto.
Qed.

(** X2. Every item of the output has a non-empty name, a non-empty
    username, at least one uri, and no empty uri. *)
Theorem items_are_well_formed (rows : list Row) (it : Item.t) :
  it ∈ items (convert rows) ->
  truthy (Item.name it) = true /\
  truthy (Login.username (Item.login it)) = true /\
  Login.uris (Item.login it) <> [] /\
  forall u, u ∈ Login.uris (Item.login it) -> truthy (UriEntry.uri u) = true.
Proof.
  intros Hin. apply convert_items_elem in Hin as [n Hn].
  pose proof (group_all_accepted n rows) as Hall.
  destruct (group n rows) as [|row rest]; [done|].
  rewrite item_of_group_cons in Hn. injection Hn as <-.
  apply Forall_cons in Hall as [[Hacc _] Hrest].
  apply accepted_truthy in Hacc as (Hname & Hurl & Huser).
  destruct (merge_rows_frame rest (item_of_row row)) as (_ & -> & _).
  rewrite merge_rows_login. simpl. repeat split; try done.
  intros u. rewrite elem_of_cons. intros [->|Hu]; [done|].
  change (map ?f ?l) with (f <$> l) in Hu.
  apply list_elem_of_fmap in Hu as (r & -> & Hr). simpl.
  rewrite Forall_forall in Hrest. apply Hrest in Hr as [Hacc _].
  apply accepted_truthy in Hacc. tauto.
Qed.

(** ** The notes of a group *)

Lemma merge_row_notes it row :
  Item.notes (merge_row it row) =
  if conflicting it (get row (lit "username")) (get row (lit "password"))
  then add_block (Item.notes it) (block_of row)
  else Item.notes it.
Proof.
  unfold merge_row. rewrite conflicting_append_uri.
  destruct (conflicting it _ _); [|done]. by rewrite annotate_notes.
Qed.

Lemma conflicting_differs it first row :
  Login.username (Item.login it) = get first (lit "username") ->
  Login.password (Item.login it) = get first (lit "password") ->
  conflicting it (get row (lit "username")) (get row (lit "password"))
  = differs first row.
Proof. unfold conflicting, differs. by intros -> ->. Qed.

Lemma merge_rows_notes first rest : forall it,
  Login.username (Item.login it) = get first (lit "username") ->
  Login.password (Item.login it) = get first (lit "password") ->
  Item.notes (fold_left merge_row rest it) =
  fold_left add_block (map block_of (List.filter (differs first) rest)) (Item.notes it).
Proof.
  induction rest as [|row rest IH]; intros it Hu Hp; simpl; [done|].
  rewrite IH by (by rewrite merge_row_login).
  rewrite merge_row_notes, (conflicting_differs it first row Hu Hp).
  by destruct (differs first row).
Qed.

Lemma group_notes rows n first rest :
  group n rows = first :: rest ->
  exists it,
    find_item (convert rows) n = Some it /\
    Item.notes it =
    fold_left add_block (map block_of (List.filter (differs first) rest))
      (if truthy (get_default first (lit "note") (Some []))
       then get_default first (lit "note") (Some []) else None).
Proof.
  intros Hgroup. destruct (convert_spec rows) as [_ Hg].
  rewrite Hg, Hgroup, item_of_group_cons. eexists. split; [done|].
  by rewrite (merge_rows_notes first).
Qed.

Lemma add_blocks_truthy blocks : forall c s,
  fold_left add_block blocks (Some (c :: s)) = Some ((c :: s) ++ concat blocks).
Proof.
  induction blocks as [|b blocks IH]; intros c s; simpl.
  - by rewrite app_nil_r.
  - rewrite IH. simpl. by rewrite <- app_assoc.
Qed.

Lemma add_block_falsy notes row :
  truthy notes = false ->
  exists c s, strip (block_of row) = c :: s /\ add_block notes (block_of row) = Some (c :: s).
Proof.
  intros Hfalsy. unfold block_of.
  pose proof (strip_conflict_note_nonempty (get row (lit "url"))
                (get row (lit "username"))) as Hne.
  destruct (strip (conflict_note _ _)) as [|c s] eqn:E; [done|].
  exists c, s. split; [done|].
  destruct notes as [[|x notes]|]; simpl in *; try done; by rewrite E.
Qed.

(** X3. The notes of an item are the note of the first row of its group,
    when that note is not empty, followed by the blocks of the later rows of
    the group whose username or password is not the first row's, in input
    order. When the first row has no note, the first such block is trimmed
    and the others follow it; when there is none either, the notes are
    unset. *)
Theorem notes_of_a_group (rows : list Row) (n : pyval) (first : Row) (rest : list Row) :
  group n rows = first :: rest ->
  let blocks := map block_of (List.filter (differs first) rest) in
  exists it,
    find_item (convert rows) n = Some it /\
    Item.notes it =
    match get_default first (lit "note") (Some []), blocks with
    | Some (c :: note), _ => Some ((c :: note) ++ concat blocks)
    | _, [] => None
    | _, block :: blocks => Some (strip block ++ concat blocks)
    end.
Proof.
  intros Hgroup blocks.
  destruct (group_notes rows n first rest Hgroup) as (it & Hit & Hnotes).
  exists it. split; [done|]. rewrite Hnotes. subst blocks.
  destruct (get_default first (lit "note") (Some [])) as [[|c note]|] eqn:Hnote;
    cbn [truthy]; try apply add_blocks_truthy;
    (destruct (List.filter (differs first) rest) as [|row later]; [done|]);
    cbn [map fold_left];
    (edestruct (add_block_falsy None row) as (c & s & Hs & Hadd); [done|]);
    rewrite Hadd, add_blocks_truthy, Hs; done.
Qed.

Lemma filter_nil_iff {A} (f : A -> bool) (l : list A) :
  List.filter f l = [] <-> forall x, x ∈ l -> f x = false.
Proof.
  induction l as [|a l IH]; simpl.
  - split; [intros _ x Hx; by apply elem_of_nil in Hx | done].
  - destruct (f a) eqn:Ha.
    + split; [done|]. intros Hall. specialize (Hall a). rewrite Ha in Hall.
      discriminate Hall. left.
    + rewrite IH. split.
      * intros Hall x. rewrite elem_of_cons. intros [->|Hx]; auto.
      * intros Hall x Hx. apply Hall. by right.
Qed.

Lemma add_blocks_falsy_truthy rows : forall notes,
  rows <> [] \/ truthy notes = true ->
  truthy (fold_left add_block (map block_of rows) notes) = true.
Proof.
  induction rows as [|row rows IH]; intros notes Hor; simpl.
  - by destruct Hor.
  - apply IH. right.
    destruct (truthy notes) eqn:Ht.
    + by destruct notes as [[|c s]|].
    + destruct (add_block_falsy notes row Ht) as (c & s & _ & ->). done.
Qed.

(** X4. The notes of an item are never the empty string, and they are
    unset exactly when the first row of the group has no note and no later
    row of the group has another username or password than the first. *)
Theorem notes_unset_iff (rows : list Row) (n : pyval) (first : Row) (rest : list Row)
    (it : Item.t) :
  group n rows = first :: rest ->
  find_item (convert rows) n = Some it ->
  Item.notes it <> Some [] /\
  (Item.notes it = None <->
   truthy (get_default first (lit "note") (Some [])) = false /\
   forall row, row ∈ rest -> differs first row = false).
Proof.
  intros Hgroup Hit.
  destruct (group_notes rows n first rest Hgroup) as (it' & Hit' & Hnotes).
  assert (it' = it) as -> by congruence. clear Hit'.
  rewrite <- filter_nil_iff.
  set (note := get_default first (lit "note") (Some [])) in *.
  destruct (List.filter (differs first) rest) as [|row later] eqn:Hf.
  - simpl in Hnotes. rewrite Hnotes.
    destruct note as [[|c s]|]; simpl; split; try done; split; try done.
    by intros [? _].
  - assert (Ht : truthy (fold_left add_block (map block_of (row :: later))
                            (if truthy note then note else None)) = true).
    { apply add_blocks_falsy_truthy. by left. }
    rewrite <- Hnotes in Ht.
    destruct (Item.notes it) as [[|c s]|]; try done.
    split; [done|]. split; [done|]. intros [_ ?]. done.
Qed.

(** ** What the run prints *)

Lemma process_row_items_indep st st' row :
  grouped_items st = grouped_items st' ->
  grouped_items (process_row st row) = grouped_items (process_row st' row).
Proof.
  intros Heq. destruct (accepted row) eqn:Hacc.
  - by rewrite !process_row_items, Heq.
  - by rewrite !process_row_skip.
Qed.

Lemma process_row_printed st row before :
  grouped_items st = grouped_items (process_rows (mkState [] []) before) ->
  printed (process_row st row) =
  printed st ++
  match head (group (get row (lit "name")) before) with
  | Some first => if accepted row && differs first row then warning_lines row else []
  | None => []
  end.
Proof.
  intros Hitems. destruct (accepted row) eqn:Hacc.
  - destruct (process_rows_spec before) as [_ Hg]. cbv zeta in Hg.
    specialize (Hg (get row (lit "name"))). rewrite <- Hitems in Hg.
    destruct (group (get row (lit "name")) before) as [|first rest]; simpl.
    + unfold process_row. rewrite accepted_negb, Hacc, Hg. simpl.
      by rewrite app_nil_r.
    + rewrite item_of_group_cons in Hg.
      rewrite (process_row_existing st row _ Hacc Hg).
      rewrite (conflicting_differs _ first row) by (by rewrite merge_rows_login).
      destruct (differs first row); simpl; [done | by rewrite app_nil_r].
  - rewrite process_row_skip by done. simpl.
    destruct (head _); by rewrite app_nil_r.
Qed.

Lemma process_rows_printed rows : forall before st,
  grouped_items st = grouped_items (process_rows (mkState [] []) before) ->
  printed (process_rows st rows) = printed st ++ warnings_from before rows.
Proof.
  induction rows as [|row rows IH]; intros before st Hitems.
  - simpl. by rewrite app_nil_r.
  - rewrite process_rows_cons. cbn [warnings_from].
    rewrite (IH (before ++ [row])).
    + rewrite (process_row_printed st row before Hitems). by rewrite <- app_assoc.
    + rewrite process_rows_snoc. by apply process_row_items_indep.
Qed.

Lemma elem_of_warnings_from d rows : forall seen,
  d ∈ warnings_from seen rows <->
  exists before row after first,
    rows = before ++ row :: after /\
    accepted row = true /\
    head (group (get row (lit "name")) (seen ++ before)) = Some first /\
    differs first row = true /\
    d ∈ warning_lines row.
Proof.
  induction rows as [|row rows IH]; intros seen; cbn [warnings_from].
  - split; [intros H; by apply elem_of_nil in H|].
    intros (before & r & after & first & Heq & _). by destruct before.
  - rewrite elem_of_app, IH. split.
    + intros [Hd | (before & r & after & first & -> & Hacc & Hhd & Hdiff & Hd)].
      * exists [], row, rows.
        rewrite app_nil_r.
        destruct (head (group (get row (lit "name")) seen)) as [first|];
          [|by apply elem_of_nil in Hd].
        destruct (accepted row) eqn:Hacc; [|by apply elem_of_nil in Hd].
        destruct (differs first row) eqn:Hdiff; [|by apply elem_of_nil in Hd].
        by exists first.
      * exists (row :: before), r, after, first.
        rewrite <- app_assoc in Hhd. done.
    + intros (before & r & after & first & Heq & Hacc & Hhd & Hdiff & Hd).
      destruct before as [|r0 before]; simpl in Heq; injection Heq as -> ->.
      * left. rewrite app_nil_r in Hhd. by rewrite Hhd, Hacc, Hdiff.
      * right. exists before, r, after, first.
        rewrite <- app_assoc. done.
Qed.

(** X5. The loop prints its three warning lines for a row exactly when
    the row is accepted, an earlier accepted row bears its name, and its
    username or password is not the one of the first such row; it compares
    with the first row of the group, not with the row before. *)
Theorem warnings_compare_with_first_row (rows : list Row) (out : list Diag) :
  printed (process_rows (mkState [] out) rows) = out ++ warnings_from [] rows /\
  forall d,
    d ∈ warnings_from [] rows <->
    exists before row after first,
      rows = before ++ row :: after /\
      accepted row = true /\
      head (group (get row (lit "name")) before) = Some first /\
      differs first row = true /\
      d ∈ warning_lines row.
Proof.
  split.
  - by rewrite (process_rows_printed rows [] (mkState [] out)).
  - intros d. apply (elem_of_warnings_from d rows []).
Qed.

Lemma convert_items_length rows :
  length (grouped_items (process_rows (mkState [] []) rows))
  = length (items (convert rows)).
Proof. unfold convert, bitwarden_output, dict_values. simpl. by rewrite length_map. Qed.

Lemma printed_warnings rows :
  printed (process_rows (mkState [] []) rows) = warnings_from [] rows.
Proof. by rewrite (process_rows_printed rows [] (mkState [] []) eq_refl). Qed.

(** X6. With the expected header and a stdout that takes every line, a
    run prints the input path, then the warnings of the rows, then one
    closing message: the unexpected-error line when reading breaks off, the
    could-not-write line when the output cannot be written, and otherwise
    the success lines, which count the items of the document. *)
Theorem stdout_of_a_run (console : Console) (input_csv_path output_json_path : list N)
    (fieldnames : list (list N)) (rows : list Row) (broken : bool)
    (sink : Sink) (file : option (list N)) :
  has_expected_headers fieldnames = true ->
  (forall out line, accepts console out line = true) ->
  stdout (convert_google_to_bitwarden console input_csv_path output_json_path
            (Csv (Some fieldnames) rows broken) sink file)
  = ReadingFrom input_csv_path :: warnings_from [] rows ++
    (if broken then [ErrorUnexpected]
     else match sink with
          | Writable => success_lines (length (items (convert rows))) output_json_path
          | _ => [ErrorCouldNotWrite]
          end).
Proof.
  intros Hhdr Haccepts.
  unfold convert_google_to_bitwarden, read_phase, read_body, write_phase, handler.
  rewrite Hhdr.
  destruct broken, sink;
    repeat (cbn -[process_rows warnings_from Json.dumps convert];
            first [rewrite printed_warnings | rewrite Haccepts
                  | rewrite (emit_all console) by done]);
    cbn -[process_rows warnings_from Json.dumps convert];
    rewrite ?convert_items_length, <- ?app_assoc; reflexivity.
Qed.

(** The run once the input is read and the lines of the reading are
    taken. *)
Lemma run_after_reading console input_csv_path output_json_path source file rows :
  rows_read source = Some rows ->
  let reading := ReadingFrom input_csv_path :: warnings_from [] rows in
  let text := Json.dumps (convert rows) in
  snd (emit console [] reading) = true ->
  convert_google_to_bitwarden console input_csv_path output_json_path source Writable file =
  let (out, taken) :=
    emit console reading
      (success_lines (length (items (convert rows))) output_json_path) in
  if taken then mkOutcome (exit_status console out Normal) (Some text) out
  else
    let (out, c) := handler console out ErrorCouldNotWrite in
    mkOutcome (exit_status console out c) (Some text) out.
Proof.
  intros Hread reading text Htaken. subst reading text.
  unfold convert_google_to_bitwarden, read_phase, write_phase.
  rewrite (read_body_rows _ _ Hread), printed_warnings.
  rewrite emit_first in Htaken. rewrite emit_one.
  destruct (accepts console [] (ReadingFrom input_csv_path)); [|done].
  destruct (emit console [ReadingFrom input_csv_path] (warnings_from [] rows))
    as [out taken] eqn:Hemit.
  cbn [snd] in Htaken. subst taken. apply emit_taken in Hemit. subst out.
  cbn [printed grouped_items app]. rewrite convert_items_length.
  unfold success_lines.
  destruct (emit console _ _) as [out []]; [done|].
  by destruct (handler console out ErrorCouldNotWrite).
Qed.

Lemma run_reading_refused console input_csv_path output_json_path source sink file rows :
  rows_read source = Some rows ->
  snd (emit console [] (ReadingFrom input_csv_path :: warnings_from [] rows)) = false ->
  status (convert_google_to_bitwarden console input_csv_path output_json_path
            source sink file) <> 0%Z.
Proof.
  intros Hread Hrefused.
  unfold convert_google_to_bitwarden, read_phase, write_phase, handler, exit_status.
  rewrite (read_body_rows _ _ Hread), printed_warnings.
  rewrite emit_first in Hrefused. rewrite emit_one.
  destruct (accepts console [] (ReadingFrom input_csv_path)); [|by run_cases].
  destruct (emit console [ReadingFrom input_csv_path] (warnings_from [] rows))
    as [out taken] eqn:Hemit.
  cbn [snd] in Hrefused. subst taken. by run_cases.
Qed.

(** X7. The exit status of a run is 0, 1 or 120, and 120 exactly when
    stdout cannot be flushed on exit. It is 0 exactly when the input was
    read to its end with the expected header, the output was written,
    every line printed was taken and stdout could be flushed; the output
    file then holds the whole text of the document and stdout ends with the
    success lines. *)
Theorem exit_status_of_a_run (console : Console)
    (input_csv_path output_json_path : list N)
    (source : Source) (sink : Sink) (file : option (list N)) :
  let outcome :=
    convert_google_to_bitwarden console input_csv_path output_json_path source sink file in
  let lines rows :=
    ReadingFrom input_csv_path :: warnings_from [] rows ++
    success_lines (length (items (convert rows))) output_json_path in
  (status outcome = 0%Z \/ status outcome = 1%Z \/ status outcome = 120%Z) /\
  (status outcome = 120%Z <-> flushes console (stdout outcome) = false) /\
  (status outcome = 0%Z <->
   exists rows,
     rows_read source = Some rows /\ sink = Writable /\
     emit console [] (lines rows) = (lines rows, true) /\
     flushes console (lines rows) = true) /\
  (status outcome = 0%Z ->
   exists rows,
     rows_read source = Some rows /\
     output_file outcome = Some (Json.dumps (convert rows)) /\
     stdout outcome = lines rows).
Proof.
  cbv zeta.
  assert (Hrange :
    let outcome :=
      convert_google_to_bitwarden console input_csv_path output_json_path
        source sink file in
    (status outcome = 0%Z \/ status outcome = 1%Z \/ status outcome = 120%Z) /\
    (status outcome = 120%Z <-> flushes console (stdout outcome) = false)).
  { cbv zeta.
    unfold convert_google_to_bitwarden, read_phase, write_phase, handler, exit_status.
    destruct (rows_read source) as [rows|] eqn:Hread.
    - rewrite (read_body_rows _ _ Hread).
      destruct sink; run_cases; split; auto; split; congruence.
    - destruct (read_body_failure _ Hread) as (st & c & -> & [->|[->| ->]]);
        run_cases; split; auto; split; congruence. }
  destruct Hrange as [Hrange H120]. split; [done|]. split; [done|].
  assert (Hzero :
    status (convert_google_to_bitwarden console input_csv_path output_json_path
              source sink file) = 0%Z ->
    exists rows,
      rows_read source = Some rows /\ sink = Writable /\
      emit console []
        (ReadingFrom input_csv_path :: warnings_from [] rows ++
         success_lines (length (items (convert rows))) output_json_path)
      = (ReadingFrom input_csv_path :: warnings_from [] rows ++
         success_lines (length (items (convert rows))) output_json_path, true) /\
      flushes console
        (ReadingFrom input_csv_path :: warnings_from [] rows ++
         success_lines (length (items (convert rows))) output_json_path) = true /\
      output_file (convert_google_to_bitwarden console input_csv_path output_json_path
                     source sink file) = Some (Json.dumps (convert rows)) /\
      stdout (convert_google_to_bitwarden console input_csv_path output_json_path
                source sink file)
      = ReadingFrom input_csv_path :: warnings_from [] rows ++
        success_lines (length (items (convert rows))) output_json_path).
  { intros Hst.
    destruct (rows_read source) as [rows|] eqn:Hread; cycle 1.
    { exfalso. revert Hst. apply run_failure_status. by left. }
    assert (Hsink : sink = Writable).
    { destruct sink; [| |done]; exfalso; revert Hst;
        apply run_failure_status; by right. }
    subst sink.
    exists rows. split; [done|]. split; [done|].
    destruct (snd (emit console [] (ReadingFrom input_csv_path :: warnings_from [] rows)))
      eqn:Hreading; cycle 1.
    { exfalso. revert Hst. by apply run_reading_refused with (rows := rows). }
    rewrite (run_after_reading _ _ _ _ _ _ Hread Hreading) in Hst |- *.
    change (ReadingFrom input_csv_path :: warnings_from [] rows ++ ?s)
      with ((ReadingFrom input_csv_path :: warnings_from [] rows) ++ s).
    rewrite emit_app.
    destruct (emit console [] (ReadingFrom input_csv_path :: warnings_from [] rows))
      as [out taken] eqn:Hemit.
    simpl in Hreading. subst taken. apply emit_taken in Hemit. simpl in Hemit. subst out.
    destruct (emit console _ (success_lines _ _)) as [out []] eqn:Hsuccess.
    - pose proof (emit_taken _ _ _ _ Hsuccess) as ->.
      unfold exit_status in Hst. simpl in Hst |- *.
      destruct (flushes console _); [done | discriminate Hst].
    - exfalso. revert Hst. unfold handler, exit_status. by run_cases. }
  split.
  - split.
    + intros Hst. destruct (Hzero Hst) as (rows & ? & ? & ? & ? & _). by exists rows.
    + intros (rows & Hread & -> & Hemit & Hflush).
      change (ReadingFrom input_csv_path :: warnings_from [] rows ++ ?s)
        with ((ReadingFrom input_csv_path :: warnings_from [] rows) ++ s) in Hemit, Hflush.
      rewrite emit_app in Hemit.
      destruct (emit console [] (ReadingFrom input_csv_path :: warnings_from [] rows))
        as [out taken] eqn:Hreading.
      destruct taken; [|by injection Hemit].
      pose proof (emit_taken _ _ _ _ Hreading) as Hout. simpl in Hout. subst out.
      rewrite (run_after_reading _ _ _ _ _ _ Hread) by (by rewrite Hreading).
      rewrite Hemit. unfold exit_status. cbn [status]. by rewrite Hflush.
  - intros Hst. destruct (Hzero Hst) as (rows & ? & _ & _ & _ & ? & ?). by exists rows.
Qed.

(** X14. When the input is read, the document written and a success line
    refused by stdout (its encoding lacks the check mark, say), the run
    ends with a status other than 0 although the output file holds the
    whole document, and the last thing it prints, if stdout takes it, is
    the line that says the output could not be written. *)
Theorem refused_success_line_reports_a_write_error (console : Console)
    (input_csv_path output_json_path : list N)
    (source : Source) (file : option (list N)) (rows : list Row) (out : list Diag) :
  rows_read source = Some rows ->
  snd (emit console [] (ReadingFrom input_csv_path :: warnings_from [] rows)) = true ->
  emit console (ReadingFrom input_csv_path :: warnings_from [] rows)
    (success_lines (length (items (convert rows))) output_json_path) = (out, false) ->
  let outcome :=
    convert_google_to_bitwarden console input_csv_path output_json_path
      source Writable file in
  status outcome <> 0%Z /\
  output_file outcome = Some (Json.dumps (convert rows)) /\
  stdout outcome =
    out ++ (if accepts console out ErrorCouldNotWrite then [ErrorCouldNotWrite] else []).
Proof.
  intros Hread Hreading Hsuccess. cbv zeta.
  rewrite (run_after_reading _ _ _ _ _ _ Hread Hreading), Hsuccess.
  unfold handler, exit_status. run_cases; rewrite ?app_nil_r; by repeat split.
Qed.


(** ** More rows, other rows, no rows *)

Lemma first_occurrences_app {A} `{EqDecision A} (l m : list A) :
  first_occurrences l `prefix_of` first_occurrences (l ++ m).
Proof.
  induction m as [|x m IH] using rev_ind.
  - by rewrite app_nil_r.
  - rewrite app_assoc, first_occurrences_snoc.
    destruct (decide (x ∈ l ++ m)); [done|].
    etrans; [exact IH|]. by apply prefix_app_r.
Qed.

Lemma accepted_names_app rows more :
  accepted_names (rows ++ more) = accepted_names rows ++ accepted_names more.
Proof. unfold accepted_names. by rewrite List.filter_app, map_app. Qed.

Lemma convert_items_lookup rows i it :
  items (convert rows) !! i = Some it ->
  item_of_group (group (Item.name it) rows) = Some it.
Proof.
  intros Hi. apply list_elem_of_lookup_2 in Hi.
  apply convert_items_elem in Hi as [n Hn].
  by rewrite (item_of_group_name _ _ _ Hn).
Qed.

(** X8. Rows appended to an input never remove or reorder the items
    built so far: each item keeps its place, its name, its username and
    its password, and its uris only grow at the end. *)
Theorem appended_rows_extend_the_output (rows more : list Row) :
  map Item.name (items (convert rows))
    `prefix_of` map Item.name (items (convert (rows ++ more))) /\
  forall i it,
    items (convert rows) !! i = Some it ->
    exists it',
      items (convert (rows ++ more)) !! i = Some it' /\
      Item.name it' = Item.name it /\
      Login.username (Item.login it') = Login.username (Item.login it) /\
      Login.password (Item.login it') = Login.password (Item.login it) /\
      Login.uris (Item.login it) `prefix_of` Login.uris (Item.login it').
Proof.
  assert (Hpre : map Item.name (items (convert rows))
                   `prefix_of` map Item.name (items (convert (rows ++ more)))).
  { destruct (convert_spec rows) as [-> _].
    destruct (convert_spec (rows ++ more)) as [-> _].
    rewrite accepted_names_app. apply first_occurrences_app. }
  split; [done|]. intros i it Hi.
  assert (Hn : map Item.name (items (convert (rows ++ more))) !! i = Some (Item.name it)).
  { eapply prefix_lookup_Some; [|exact Hpre].
    change (map ?f ?l) with (f <$> l). by rewrite list_lookup_fmap, Hi. }
  change (map ?f ?l) with (f <$> l) in Hn. rewrite list_lookup_fmap in Hn.
  destruct (items (convert (rows ++ more)) !! i) as [it'|] eqn:Hi'; [|done].
  injection Hn as Hname. exists it'. split; [done|]. split; [done|].
  apply convert_items_lookup in Hi, Hi'.
  rewrite Hname, group_app in Hi'.
  destruct (group (Item.name it) rows) as [|first rest]; [done|].
  simpl in Hi'. rewrite item_of_group_cons in Hi, Hi'.
  rewrite fold_left_app in Hi'.
  injection Hi as Hi. injection Hi' as Hi'. rewrite Hi in Hi'. subst it'.
  rewrite merge_rows_login. simpl. repeat split. by eexists.
Qed.

(** X9. The item of a name depends on the accepted rows of that name
    alone: two inputs with the same rows for a name give the same item for
    it, whatever their other rows are. *)
Theorem groups_do_not_interfere (rows rows' : list Row) (n : pyval) :
  group n rows = group n rows' ->
  find_item (convert rows) n = find_item (convert rows') n.
Proof.
  intros Hgroup. destruct (convert_spec rows) as [_ ->].
  destruct (convert_spec rows') as [_ ->]. by rewrite Hgroup.
Qed.

(** X10. The output has no item for a name exactly when no accepted row
    bears it, and no item at all exactly when every row lacks a name, a
    url or a username. *)
Theorem absent_names_and_empty_output (rows : list Row) :
  (forall n,
     find_item (convert rows) n = None <->
     forall row, row ∈ rows -> accepted row = true -> get row (lit "name") <> n) /\
  (items (convert rows) = [] <-> forall row, row ∈ rows -> accepted row = false).
Proof.
  destruct (convert_spec rows) as [Hk Hg]. split.
  - intros n. rewrite Hg. split.
    + intros Hnone row Hin Hacc Hn.
      assert (Hrow : row ∈ group n rows) by by apply elem_of_group.
      destruct (group n rows) as [|first rest]; [by apply elem_of_nil in Hrow|].
      by rewrite item_of_group_cons in Hnone.
    + intros Hno. destruct (group n rows) as [|first rest] eqn:E; [done|].
      exfalso. assert (Hrow : first ∈ group n rows) by (rewrite E; left).
      apply elem_of_group in Hrow as (Hin & Hacc & Hn). by apply (Hno first).
  - rewrite <- filter_nil_iff. split.
    + intros Hnil. rewrite Hnil in Hk. simpl in Hk.
      unfold accepted_names in Hk.
      destruct (List.filter accepted rows); [done|]. discriminate Hk.
    + intros Hnil. unfold accepted_names in Hk. rewrite Hnil in Hk.
      by apply map_eq_nil in Hk.
Qed.

(** ** The text of the trimmed block *)

(** X12. For a username that does not end in white space, the trimmed
    block that unset notes become is the block without its two leading line
    feeds and its closing one; it starts with the marker and ends with the
    username. *)
Theorem trimmed_block_text (url : pyval) (u : list N) (c : N) :
  isspace c = false ->
  let text :=
    marker ++ nl ++
    lit "An entry for the URL below had different credentials and was not merged automatically:"
    ++ nl ++ lit "URL: " ++ format url ++ nl ++ lit "Username: " ++ u ++ [c] in
  strip (conflict_note url (Some (u ++ [c]))) = text /\
  conflict_note url (Some (u ++ [c])) = nl ++ nl ++ text ++ nl.
Proof.
  intros Hc text. subst text. split.
  - rewrite strip_conflict_note. simpl format.
    replace (lit " " ++ (u ++ [c]) ++ nl) with ((lit " " ++ u) ++ c :: nl)
      by (by rewrite <- !app_assoc).
    rewrite rstrip_keeps by done.
    change (rstrip nl) with (@nil N).
    rewrite <- !app_assoc. reflexivity.
  - unfold conflict_note, marker. simpl format. by rewrite <- !app_assoc.
Qed.

(** ** The text written to the output file *)

Lemma lit_cons a s : lit (String a s) = N_of_ascii a :: lit s.
Proof. reflexivity. Qed.

Lemma hex_digit_ascii d : (d < 16)%N -> printable_ascii (Json.hex_digit d) = true.
Proof.
  intros Hd. unfold Json.hex_digit, printable_ascii.
  destruct (N.ltb_spec d 10).
  - apply orb_true_iff. right. apply andb_true_iff. rewrite !N.leb_le. lia.
  - apply orb_true_iff. right. apply andb_true_iff. rewrite !N.leb_le. lia.
Qed.

Lemma hex4_ascii n : forallb printable_ascii (Json.hex4 n) = true.
Proof.
  unfold Json.hex4. simpl.
  rewrite !hex_digit_ascii; [done|..]; by apply N.mod_lt.
Qed.

Lemma escape_ascii c : forallb printable_ascii (Json.escape c) = true.
Proof.
  unfold Json.escape.
  repeat (match goal with
          | |- context [if ?b then _ else _] => destruct b eqn:?
          end; [try reflexivity|]).
  - simpl. unfold printable_ascii. rewrite andb_true_r.
    match goal with H : (_ && _)%bool = true |- _ => rewrite H end.
    apply orb_true_r.
  - change (lit "u") with [117%N]. cbn [forallb app].
    rewrite hex4_ascii. reflexivity.
  - change (lit "u") with [117%N]. cbn [forallb app].
    rewrite forallb_app. cbn [forallb]. rewrite !hex4_ascii. reflexivity.
Qed.

Lemma str_ascii s : forallb printable_ascii (Json.str s) = true.
Proof.
  unfold Json.str. cbn [forallb]. rewrite forallb_app. simpl.
  rewrite andb_true_r. induction s as [|c s IH]; simpl; [done|].
  by rewrite forallb_app, escape_ascii, IH.
Qed.

Lemma val_ascii v : forallb printable_ascii (Json.val v) = true.
Proof. destruct v; [apply str_ascii | reflexivity]. Qed.

Lemma bool_ascii b : forallb printable_ascii (Json.bool b) = true.
Proof. by destruct b. Qed.

Lemma uint_ascii d :
  forallb printable_ascii (lit (DecimalString.NilEmpty.string_of_uint d)) = true.
Proof. induction d; simpl; rewrite ?lit_cons; simpl; done. Qed.

Lemma int_ascii z : forallb printable_ascii (Json.int z) = true.
Proof.
  unfold Json.int, DecimalString.NilZero.string_of_int,
    DecimalString.NilZero.string_of_uint.
  destruct (Z.to_int z) as [d|d]; destruct d; rewrite ?lit_cons;
    try reflexivity; cbn [forallb]; rewrite ?lit_cons; cbn [forallb];
    rewrite ?uint_ascii; reflexivity.
Qed.

Lemma newline_indent_ascii level :
  forallb printable_ascii (Json.newline_indent level) = true.
Proof.
  unfold Json.newline_indent. simpl. induction (level + (level + 0)); simpl; done.
Qed.

Lemma join_ascii sep parts :
  forallb printable_ascii sep = true ->
  Forall (fun x => forallb printable_ascii x = true) parts ->
  forallb printable_ascii (Json.join sep parts) = true.
Proof.
  intros Hsep. induction 1 as [|x parts Hx Hparts IH]; [done|].
  destruct parts as [|y parts]; [done|].
  cbn [Json.join] in *. by rewrite !forallb_app, Hx, Hsep, IH.
Qed.

Lemma array_ascii level elements :
  Forall (fun x => forallb printable_ascii x = true) elements ->
  forallb printable_ascii (Json.array level elements) = true.
Proof.
  intros Hall. unfold Json.array. destruct elements as [|x elements]; [done|].
  rewrite !forallb_app, !newline_indent_ascii, join_ascii; try done.
  by rewrite forallb_app, newline_indent_ascii.
Qed.

Lemma object_ascii level members :
  Forall (fun kv => forallb printable_ascii (snd kv) = true) members ->
  forallb printable_ascii (Json.object level members) = true.
Proof.
  intros Hall. unfold Json.object.
  rewrite !forallb_app, !newline_indent_ascii, join_ascii; try done.
  - by rewrite forallb_app, newline_indent_ascii.
  - apply Forall_forall. intros x Hx.
    change (map ?f ?l) with (f <$> l) in Hx.
    apply list_elem_of_fmap in Hx as (kv & -> & Hkv).
    rewrite Forall_forall in Hall.
    by rewrite !forallb_app, str_ascii, (Hall kv Hkv).
Qed.

Lemma Forall_map_ascii {A} (f : A -> list N) (l : list A) :
  (forall x, forallb printable_ascii (f x) = true) ->
  Forall (fun x => forallb printable_ascii x = true) (map f l).
Proof.
  intros Hf. apply Forall_forall. intros x Hx.
  change (map ?f ?l) with (f <$> l) in Hx.
  apply list_elem_of_fmap in Hx as (a & -> & _). apply Hf.
Qed.

Lemma item_ascii level it : forallb printable_ascii (Json.item level it) = true.
Proof.
  unfold Json.item, Json.login.
  apply object_ascii. repeat constructor; cbn [snd];
    rewrite ?int_ascii, ?val_ascii, ?bool_ascii; try done.
  - apply object_ascii. repeat constructor; cbn [snd]; rewrite ?val_ascii; try done.
    apply array_ascii, Forall_map_ascii. intros u. unfold Json.uri_entry.
    apply object_ascii. repeat constructor; cbn [snd]; by rewrite val_ascii.
  - apply array_ascii, Forall_map_ascii. apply val_ascii.
Qed.

(** X13. The text written for a document holds nothing but line feeds and
    printable ASCII characters, whatever characters the names, urls,
    usernames, passwords and notes hold. *)
Theorem written_text_is_ascii (doc : Document) :
  forallb printable_ascii (Json.dumps doc) = true.
Proof.
  unfold Json.dumps. apply object_ascii. repeat constructor; cbn [snd].
  - apply bool_ascii.
  - apply array_ascii, Forall_map_ascii. apply val_ascii.
  - apply array_ascii, Forall_map_ascii. apply item_ascii.
Qed.

(** * The statements at concrete inputs *)

Lemma first_seen_credentials_win_witness :
  exists it,
    find_item (convert ([amazon_first] ++ [amazon_second])) (Some (lit "Amazon"))
    = Some it /\
    Login.username (Item.login it) = Some (lit "u1") /\
    Login.password (Item.login it) = Some (lit "p1").
Proof.
  destruct (first_seen_credentials_win [amazon_first] [amazon_second]
              (Some (lit "Amazon")) amazon_first) as (it & Hit & Hu & Hp & _).
  - vm_compute. reflexivity.
  - exists it. split; [exact Hit|]. split; [exact Hu | exact Hp].
Defined.

Lemma uris_follow_the_rows_witness :
  exists it,
    find_item (convert rows_A) (Some (lit "Google")) = Some it /\
    Login.uris (Item.login it)
    = [UriEntry.mk (Some (lit "https://a.com")) None;
       UriEntry.mk (Some (lit "https://b.com")) None].
Proof.
  destruct (uris_follow_the_rows rows_A (Some (lit "Google"))) as (it & Hit & Hu & _).
  - compute_done.
  - exists it. split; [exact Hit|]. rewrite Hu. vm_compute. reflexivity.
Defined.

Lemma one_item_per_name_in_first_seen_order_witness :
  map Item.name (items (convert (rows_B ++ no_username :: rows_A ++ rows_B)))
  = [Some (lit "Amazon"); Some (lit "Google")].
Proof.
  destruct (one_item_per_name_in_first_seen_order
              (rows_B ++ no_username :: rows_A ++ rows_B)) as [Hnames _].
  rewrite Hnames. vm_compute. reflexivity.
Defined.

Lemma conflict_annotation_witness :
  exists it,
    dict_get (grouped_items (process_row amazon_state amazon_second))
      (Some (lit "Amazon")) = Some it /\
    Item.notes it
    = Some (lit "--- AUTO-MERGE WARNING ---" ++ nl ++
            lit "An entry for the URL below had different credentials and was not merged automatically:"
            ++ nl ++ lit "URL: https://b.com" ++ nl ++ lit "Username: u2").
Proof.
  destruct (conflict_annotation amazon_state amazon_second amazon_item)
    as (it & url & username & Hurl & Husername & Hit & _ & Hrest).
  - vm_compute. reflexivity.
  - vm_compute. reflexivity.
  - exists it. split; [exact Hit|].
    vm_compute in Hurl. injection Hurl as <-.
    vm_compute in Husername. injection Husername as <-.
    cbv zeta in Hrest. destruct Hrest as [Hnotes _].
    destruct Hnotes as (kept & dropped & Hnotes & _ & _ & _ & Hkept).
    { left. vm_compute. discriminate. }
    rewrite Hnotes, (Hkept 50%N).
    + vm_compute. reflexivity.
    + vm_compute. reflexivity.
    + compute_done.
Defined.

Lemma invalid_rows_are_skipped_witness :
  process_row amazon_state no_username = amazon_state /\
  convert (rows_A ++ no_username :: rows_B) = convert (rows_A ++ rows_B).
Proof.
  apply (invalid_rows_are_skipped amazon_state no_username rows_A rows_B).
  right. right. right. vm_compute. reflexivity.
Defined.

Lemma output_has_fixed_shape_witness :
  encrypted (convert rows_B) = false /\ folders (convert rows_B) = [].
Proof.
  destruct (output_has_fixed_shape rows_B) as (He & Hf & _).
  split; [exact He | exact Hf].
Defined.

Lemma later_note_is_discarded_witness :
  process_row amazon_state amazon_second_noted = process_row amazon_state amazon_second /\
  convert ([amazon_first] ++ amazon_second_noted :: rows_A)
  = convert ([amazon_first] ++ amazon_second :: rows_A).
Proof.
  destruct (later_note_is_discarded amazon_state amazon_second amazon_second_noted
              amazon_item [amazon_first] rows_A) as (Hstep & Hrun & _).
  - vm_compute. reflexivity.
  - vm_compute. reflexivity.
  - vm_compute. reflexivity.
  - vm_compute. reflexivity.
  - vm_compute. reflexivity.
  - vm_compute. reflexivity.
  - split; [exact Hstep|]. apply Hrun. compute_done.
Defined.

Lemma empty_password_row_is_accepted_witness :
  accepted short_row = true /\
  exists it,
    dict_get (grouped_items (process_row (mkState [] []) short_row))
      (Some (lit "Google")) = Some it /\
    Login.password (Item.login it) = None.
Proof.
  destruct (empty_password_row_is_accepted (mkState [] []) short_row rows_A)
    as (Hacc & Hnew & _).
  - vm_compute. reflexivity.
  - vm_compute. reflexivity.
  - vm_compute. reflexivity.
  - left. vm_compute. reflexivity.
  - split; [exact Hacc|].
    destruct Hnew as (it & _ & Hit & Hp & _); [vm_compute; reflexivity|].
    exists it. split; [exact Hit | exact Hp].
Defined.

Lemma items_are_well_formed_witness :
  truthy (Item.name (merge_row amazon_item amazon_second)) = true /\
  Login.uris (Item.login (merge_row amazon_item amazon_second)) <> [].
Proof.
  destruct (items_are_well_formed rows_B (merge_row amazon_item amazon_second))
    as (Hname & _ & Huris & _).
  - vm_compute. apply list_elem_of_here.
  - split; [exact Hname | exact Huris].
Defined.

Lemma notes_of_a_group_witness :
  exists it,
    find_item (convert [amazon_first; amazon_second; amazon_third])
      (Some (lit "Amazon")) = Some it /\
    Item.notes it = Some (strip (block_of amazon_second)).
Proof.
  destruct (notes_of_a_group [amazon_first; amazon_second; amazon_third]
              (Some (lit "Amazon")) amazon_first [amazon_second; amazon_third])
    as (it & Hit & Hnotes).
  - vm_compute. reflexivity.
  - exists it. split; [exact Hit|]. rewrite Hnotes. vm_compute. reflexivity.
Defined.

Lemma notes_unset_iff_witness :
  Item.notes (merge_row (item_of_row amazon_first) amazon_third) = None.
Proof.
  destruct (notes_unset_iff [amazon_first; amazon_third] (Some (lit "Amazon"))
              amazon_first [amazon_third]
              (merge_row (item_of_row amazon_first) amazon_third))
    as (_ & _ & Hunset).
  - vm_compute. reflexivity.
  - vm_compute. reflexivity.
  - apply Hunset. split; [vm_compute; reflexivity|].
    intros row Hrow. apply list_elem_of_singleton in Hrow as ->.
    vm_compute. reflexivity.
Defined.

Lemma groups_do_not_interfere_witness :
  find_item (convert rows_A) (Some (lit "Google"))
  = find_item (convert (amazon_first :: rows_A ++ [no_username; amazon_second]))
      (Some (lit "Google")).
Proof.
  apply (groups_do_not_interfere rows_A
           (amazon_first :: rows_A ++ [no_username; amazon_second])
           (Some (lit "Google"))).
  vm_compute. reflexivity.
Defined.

Lemma trimmed_block_text_witness :
  strip (conflict_note (Some (lit "https://b.com")) (Some (lit "u" ++ [50%N])))
  = marker ++ nl ++
    lit "An entry for the URL below had different credentials and was not merged automatically:"
    ++ nl ++ lit "URL: " ++ lit "https://b.com" ++ nl ++ lit "Username: " ++ lit "u"
    ++ [50%N].
Proof.
  apply (trimmed_block_text (Some (lit "https://b.com")) (lit "u") 50%N).
  reflexivity.
Defined.

Lemma missing_header_aborts_witness :
  convert_google_to_bitwarden terminal (lit "in.csv") (lit "out.json")
    (Csv (Some [lit "name"; lit "url"; lit "username"]) rows_B false) Writable None
  = mkOutcome 1 None
      [ReadingFrom (lit "in.csv"); ErrorBadFormat;
       ExpectedHeaders [lit "name"; lit "url"; lit "username"; lit "password"];
       FoundHeaders [lit "name"; lit "url"; lit "username"]].
Proof.
  destruct (missing_header_aborts terminal (lit "in.csv") (lit "out.json")
              [lit "name"; lit "url"; lit "username"] rows_B false Writable None)
    as (_ & _ & _ & Hreliable).
  - exists (lit "password"). split; compute_done.
  - apply Hreliable. split; intros; reflexivity.
Defined.


Lemma stdout_of_a_run_witness :
  stdout (convert_google_to_bitwarden terminal (lit "in.csv") (lit "out.json")
            (Csv (Some google_header) rows_B false) Writable None)
  = [ReadingFrom (lit "in.csv");
     WarningConflict (Some (lit "Amazon")); WarningUrl (Some (lit "https://b.com"));
     WarningSticking;
     SuccessRule; SuccessReady; SuccessProcessed 1;
     SuccessCreatedAt (lit "out.json"); SuccessRule].
Proof.
  rewrite (stdout_of_a_run terminal (lit "in.csv") (lit "out.json") google_header rows_B
             false Writable None).
  - vm_compute. reflexivity.
  - vm_compute. reflexivity.
  - intros out line. reflexivity.
Defined.

Lemma exit_status_of_a_run_witness :
  status (convert_google_to_bitwarden terminal (lit "in.csv") (lit "out.json")
            (Csv (Some google_header) rows_B false) Writable None) = 0%Z.
Proof.
  destruct (exit_status_of_a_run terminal (lit "in.csv") (lit "out.json")
              (Csv (Some google_header) rows_B false) Writable None)
    as (_ & _ & [_ Hzero] & _).
  apply Hzero. exists rows_B.
  split; [vm_compute; reflexivity|]. split; [reflexivity|].
  split; vm_compute; reflexivity.
Defined.

Lemma refused_success_line_reports_a_write_error_witness :
  let outcome :=
    convert_google_to_bitwarden no_check_mark (lit "in.csv") (lit "out.json")
      (Csv (Some google_header) rows_A false) Writable None in
  status outcome <> 0%Z /\
  output_file outcome = Some (Json.dumps (convert rows_A)) /\
  stdout outcome = [ReadingFrom (lit "in.csv"); SuccessRule; ErrorCouldNotWrite].
Proof.
  apply (refused_success_line_reports_a_write_error no_check_mark
           (lit "in.csv") (lit "out.json") (Csv (Some google_header) rows_A false)
           None rows_A [ReadingFrom (lit "in.csv"); SuccessRule]).
  - vm_compute. reflexivity.
  - vm_compute. reflexivity.
  - vm_compute. reflexivity.
Defined.

(** ** The scenarios of the specification *)

Example scenario_A :
  convert rows_A
  = {| encrypted := false; folders := [];
       items := [ {| Item.type := 1; Item.name := Some (lit "Google");
                     Item.notes := None; Item.favorite := false;
                     Item.login :=
                       {| Login.uris :=
                            [ UriEntry.mk (Some (lit "https://a.com")) None;
                              UriEntry.mk (Some (lit "https://b.com")) None ];
                          Login.username := Some (lit "u1");
                          Login.password := Some (lit "p1");
                          Login.totp := None |};
                     Item.fields := [] |} ] |}.
Proof. vm_compute. reflexivity. Qed.

Example scenario_B :
  convert rows_B
  = {| encrypted := false; folders := [];
       items := [ {| Item.type := 1; Item.name := Some (lit "Amazon");
                     Item.notes :=
                       Some (lit "--- AUTO-MERGE WARNING ---" ++ nl ++
                             lit "An entry for the URL below had different credentials and was not merged automatically:"
                             ++ nl ++ lit "URL: https://b.com" ++ nl ++
                             lit "Username: u2");
                     Item.favorite := false;
                     Item.login :=
                       {| Login.uris :=
                            [ UriEntry.mk (Some (lit "https://a.com")) None;
                              UriEntry.mk (Some (lit "https://b.com")) None ];
                          Login.username := Some (lit "u1");
                          Login.password := Some (lit "p1");
                          Login.totp := None |};
                     Item.fields := [] |} ] |}.
Proof. vm_compute. reflexivity. Qed.

Example scenario_C : items (convert [no_username]) = [].
Proof. vm_compute. reflexivity. Qed.

Example scenario_D :
  convert_google_to_bitwarden terminal (lit "in.csv") (lit "out.json")
    (Csv (Some [lit "name"; lit "url"; lit "username"; lit "note"]) rows_A false)
    Writable None
  = mkOutcome 1 None
      [ReadingFrom (lit "in.csv"); ErrorBadFormat;
       ExpectedHeaders expected_headers;
       FoundHeaders [lit "name"; lit "url"; lit "username"; lit "note"]].
Proof. vm_compute. reflexivity. Qed.

(** A stdout that cannot encode the check mark: the document is written,
    the message of line 106 raises, and the run ends with status 1 after
    the line that says the output could not be written. *)
Example check_mark_refused :
  convert_google_to_bitwarden no_check_mark (lit "in.csv") (lit "out.json")
    (Csv (Some google_header) rows_A false) Writable None
  = mkOutcome 1 (Some (Json.dumps (convert rows_A)))
      [ReadingFrom (lit "in.csv"); SuccessRule; ErrorCouldNotWrite].
Proof. vm_compute. reflexivity. Qed.

(** A stdout that cannot be flushed on exit: status 120, the document
    written. *)
Example stdout_not_flushed :
  convert_google_to_bitwarden (mkConsole (fun _ _ => true) (fun _ => false))
    (lit "in.csv") (lit "out.json")
    (Csv (Some google_header) rows_A false) Writable None
  = mkOutcome 120 (Some (Json.dumps (convert rows_A)))
      [ReadingFrom (lit "in.csv"); SuccessRule; SuccessReady; SuccessProcessed 1;
       SuccessCreatedAt (lit "out.json"); SuccessRule].
Proof. vm_compute. reflexivity. Qed.

(** A user name that ends in white space loses it in notes that were
    unset, since the block is trimmed as a whole. *)
Example trimmed_block_trims_username :
  strip (conflict_note (Some (lit "https://b.com")) (Some (lit "bob  ")))
  = lit "--- AUTO-MERGE WARNING ---" ++ nl ++
    lit "An entry for the URL below had different credentials and was not merged automatically:"
    ++ nl ++ lit "URL: https://b.com" ++ nl ++ lit "Username: bob".
Proof. vm_compute. reflexivity. Qed.
